(** * Agent bridge: the coordination store of [server.py]

    A shallow embedding of the in-memory message store, task store and
    shared context of the agent bridge, and of the [call_tool] dispatcher
    that is the only code mutating them.

    - The three module-level globals [messages], [tasks] and
      [shared_context] are the fields of one [World] that every tool
      threads through.
    - [datetime.now()] and [uuid4()] are oracles of the environment [Env]:
      the n-th clock reading and the n-th UUID drawn.  The world counts how
      many of each were consumed, so that evaluation order is visible.
    - Tool arguments are the records the tools' [inputSchema] describes:
      a required key is a field, an optional key an [option] field
      ([None] when the key is absent from [arguments]).
    - [json.dumps] of the reply is left out: a tool returns the payload it
      serialises. *)

From Stdlib Require Import ZArith NArith List String Ascii Bool Lia.
From Stdlib Require Import DecimalString DecimalZ.
Import ListNotations.
Local Open Scope string_scope.

(* ================================================================= *)
(** ** Data model *)

(** A [datetime] value: microseconds since the epoch.  [isoformat()] is a
    rendering of the same instant; the stored time stamps keep the instant. *)
Definition datetime := Z.

(** The opaque [context] payload of a task. *)
#[local] Set Warnings "-register-all".
Inductive json : Type :=
| JNull
| JBool (b : bool)
| JNumber (z : Z)
| JString (s : string)
| JArray (items : list json)
| JObject (members : list (string * json)).
#[local] Set Warnings "register-all".

Record Message : Type := mkMessage {
  m_id : string;
  m_from : string;
  m_to : string;
  m_content : string;
  m_timestamp : datetime;
  m_read : bool
}.

Record Task : Type := mkTask {
  t_id : string;
  t_title : string;
  t_description : string;
  t_assignedTo : string;
  t_createdBy : string;
  t_status : string;
  t_priority : string;
  t_createdAt : datetime;
  t_updatedAt : datetime;
  t_context : json
}.

Record SharedContext : Type := mkContext {
  currentBranch : string;
  activeFiles : list string;
  recentChanges : list string;
  notes : string;
  lastUpdated : datetime
}.

(** The oracles: what the n-th [datetime.now()] and the n-th [uuid4()]
    (as its 128-bit integer) return. *)
Record Env : Type := mkEnv {
  clock : nat -> datetime;
  uuid : nat -> N
}.

Record World : Type := mkWorld {
  messages : list Message;
  tasks : list Task;
  shared_context : SharedContext;
  ticks : nat;
  draws : nat
}.

(** The payloads [call_tool] serialises. *)
Inductive response : Type :=
| RMessageSent (messageId : string)
| RMessages (count : nat) (msgs : list Message)
| RMarkedRead (markedRead : nat)
| RTaskCreated (taskId : string)
| RTasks (count : nat) (ts : list Task)
| RTaskUpdated (task : Task)
| RContextUpdated (context : SharedContext)
| RContext (context : SharedContext)
| RSuccess
| RError (error : string).

(** A tool call: the tool's name with its schema-shaped arguments. *)
Inductive request : Type :=
| SendMessage (from to content : string)
| GetMessages (agent : string) (unreadOnly : option bool)
| MarkMessagesRead (messageIds : list string)
| CreateTask (title description assignedTo createdBy : string)
             (priority : option string) (context : option json)
| GetTasks (agent : string) (filter status : option string)
| UpdateTask (taskId : string) (status notes : option string)
| UpdateContext (currentBranch : option string)
                (activeFiles recentChanges : option (list string))
                (notes : option string)
| GetContext
| AnnouncePresence (agent status : string) (workingOn : option (list string))
| UnknownTool (name : string).

(* ================================================================= *)
(** ** The state monad of the dispatcher *)

Definition M (A : Type) : Type := Env -> World -> A * World.

Definition ret {A} (a : A) : M A := fun _ w => (a, w).

Definition bind {A B} (m : M A) (k : A -> M B) : M B :=
  fun e w => let (a, w') := m e w in k a e w'.

Notation "x <- m ;; k" := (bind m (fun x => k))
  (at level 61, m at next level, right associativity).
Notation "m ;;; k" := (bind m (fun _ => k))
  (at level 61, right associativity).

Definition gets {A} (f : World -> A) : M A := fun _ w => (f w, w).

Definition modify (f : World -> World) : M unit := fun _ w => (tt, f w).

Definition set_messages (l : list Message) (w : World) : World :=
  mkWorld l (tasks w) (shared_context w) (ticks w) (draws w).

Definition set_tasks (l : list Task) (w : World) : World :=
  mkWorld (messages w) l (shared_context w) (ticks w) (draws w).

Definition set_shared_context (c : SharedContext) (w : World) : World :=
  mkWorld (messages w) (tasks w) c (ticks w) (draws w).

(** [datetime.now()] *)
Definition datetime_now : M datetime :=
  fun e w =>
    (clock e (ticks w),
     mkWorld (messages w) (tasks w) (shared_context w) (S (ticks w)) (draws w)).

(** [uuid4()] *)
Definition uuid4 : M N :=
  fun e w =>
    (uuid e (draws w),
     mkWorld (messages w) (tasks w) (shared_context w) (ticks w) (S (draws w))).

(** [messages.append(m)] and [tasks.append(t)] *)
Definition messages_append (m : Message) : M unit :=
  modify (fun w => set_messages (messages w ++ [m]) w).

Definition tasks_append (t : Task) : M unit :=
  modify (fun w => set_tasks (tasks w ++ [t]) w).

(* ================================================================= *)
(** ** Text formatting *)

Definition bytes (l : list nat) : string :=
  string_of_list_ascii (map ascii_of_nat l).

Definition dquote : string := String (ascii_of_nat 34) EmptyString.

(** [str(n)] of a Python [int]. *)
Definition str_int (z : Z) : string := NilEmpty.string_of_int (Z.to_int z).

Definition hex_digit (d : N) : ascii :=
  match d with
  | 0%N => "0" | 1%N => "1" | 2%N => "2" | 3%N => "3"
  | 4%N => "4" | 5%N => "5" | 6%N => "6" | 7%N => "7"
  | 8%N => "8" | 9%N => "9" | 10%N => "a" | 11%N => "b"
  | 12%N => "c" | 13%N => "d" | 14%N => "e" | _ => "f"
  end%char.

(** The [k] low hexadecimal digits of [u], most significant first. *)
Fixpoint hex_pad (k : nat) (u : N) : string :=
  match k with
  | O => EmptyString
  | S k' => hex_pad k' (u / 16) ++ String (hex_digit (u mod 16)) EmptyString
  end.

(** [UUID.hex], that is ['%032x' % self.int]; a UUID's integer is below
    [2 ^ 128], so these are all its digits. *)
Definition hex (u : N) : string := hex_pad 32 u.

(** [int(dt.timestamp() * 1000)]: whole milliseconds since the epoch,
    truncated towards zero.  The floating-point product is taken as exact;
    like it, this function never decreases when its argument grows. *)
Definition timestamp_ms (dt : datetime) : Z := Z.quot dt 1000.

(** The f-string of [generate_id]. *)
Definition format_id (ms : Z) (rnd : string) : string :=
  str_int ms ++ "-" ++ rnd.

Definition generate_id : M string :=
  dt <- datetime_now ;;
  u <- uuid4 ;;
  ret (format_id (timestamp_ms dt) (substring 0 9 (hex u))).

(** The byte sequences that open the three synthesised bodies, as they
    stand in the source file. *)
Definition new_task_mark : string :=
  bytes [196; 159; 197; 184; 226; 128; 156; 226; 128; 185].
Definition completed_mark : string :=
  bytes [195; 162; 197; 147; 226; 128; 166].
Definition online_mark : string :=
  bytes [196; 159; 197; 184; 197; 184; 194; 162].

Definition new_task_content (title priority : string) : string :=
  new_task_mark ++ " New task: " ++ dquote ++ title ++ dquote
    ++ " (" ++ priority ++ ")".

(** [f' - {notes}' if notes else ''] inside the completion body. *)
Definition notes_suffix (notes : string) : string :=
  match notes with
  | EmptyString => EmptyString
  | _ => " - " ++ notes
  end.

Definition completed_content (title notes : string) : string :=
  completed_mark ++ " Completed: " ++ dquote ++ title ++ dquote
    ++ notes_suffix notes.

Definition online_content (agent status : string) : string :=
  online_mark ++ " " ++ agent ++ " online: " ++ status.

(* ================================================================= *)
(** ** The tools *)

(** [arguments.get(key, default)] *)
Definition get_default {A} (o : option A) (default : A) : A :=
  match o with
  | Some v => v
  | None => default
  end.

(** [x in ids] for a list of strings. *)
Definition in_list (x : string) (ids : list string) : bool :=
  existsb (String.eqb x) ids.

Definition send_message (from to content : string) : M response :=
  i <- generate_id ;;
  ts <- datetime_now ;;
  let message := mkMessage i from to content ts false in
  messages_append message ;;;
  ret (RMessageSent (m_id message)).

Definition get_messages (agent : string) (unreadOnly : option bool)
  : M response :=
  let unread_only := get_default unreadOnly false in
  all_messages <- gets messages ;;
  let filtered :=
    List.filter (fun m => (m_to m =? agent) || (m_to m =? "all"))
                all_messages in
  let filtered :=
    if unread_only
    then List.filter (fun m => negb (m_read m)) filtered
    else filtered in
  ret (RMessages (List.length filtered) filtered).

Definition mark_read (msg : Message) : Message :=
  mkMessage (m_id msg) (m_from msg) (m_to msg) (m_content msg)
            (m_timestamp msg) true.

(** The [for msg in messages] loop of [mark_messages_read], with the
    running value of [marked]. *)
Fixpoint mark_loop (ids : list string) (msgs : list Message) (marked : nat)
  : list Message * nat :=
  match msgs with
  | [] => ([], marked)
  | msg :: rest =>
      if in_list (m_id msg) ids
      then let (rest', n) := mark_loop ids rest (S marked) in
           (mark_read msg :: rest', n)
      else let (rest', n) := mark_loop ids rest marked in
           (msg :: rest', n)
  end.

Definition mark_messages_read (ids : list string) : M response :=
  all_messages <- gets messages ;;
  let (msgs', marked) := mark_loop ids all_messages 0 in
  modify (set_messages msgs') ;;;
  ret (RMarkedRead marked).

Definition create_task (title description assignedTo createdBy : string)
    (priority : option string) (context : option json) : M response :=
  i <- generate_id ;;
  createdAt <- datetime_now ;;
  updatedAt <- datetime_now ;;
  let task :=
    mkTask i title description assignedTo createdBy "pending"
           (get_default priority "medium") createdAt updatedAt
           (get_default context (JObject [])) in
  tasks_append task ;;;
  j <- generate_id ;;
  ts <- datetime_now ;;
  messages_append
    (mkMessage j (t_createdBy task) (t_assignedTo task)
               (new_task_content (t_title task) (t_priority task))
               ts false) ;;;
  ret (RTaskCreated (t_id task)).

Definition get_tasks (agent : string) (filter status : option string)
  : M response :=
  let filter_type := get_default filter "assigned" in
  let status_filter := get_default status "all" in
  filtered <- gets tasks ;;
  let filtered :=
    if filter_type =? "assigned"
    then List.filter (fun t => t_assignedTo t =? agent) filtered
    else if filter_type =? "created"
    then List.filter (fun t => t_createdBy t =? agent) filtered
    else filtered in
  let filtered :=
    if negb (status_filter =? "all")
    then List.filter (fun t => t_status t =? status_filter) filtered
    else filtered in
  ret (RTasks (List.length filtered) filtered).

(** [next((t for t in tasks if t["id"] == task_id), None)]: the first task
    with that id, with its position in [tasks] (the object the rest of
    [update_task] mutates in place). *)
Fixpoint next_task (task_id : string) (ts : list Task) : option (nat * Task) :=
  match ts with
  | [] => None
  | t :: rest =>
      if t_id t =? task_id then Some (O, t)
      else match next_task task_id rest with
           | Some (i, t') => Some (S i, t')
           | None => None
           end
  end.

(** In-place mutation of the object at position [i]. *)
Fixpoint store_at {A} (i : nat) (x : A) (l : list A) : list A :=
  match l, i with
  | [], _ => []
  | _ :: rest, O => x :: rest
  | y :: rest, S i' => y :: store_at i' x rest
  end.

Definition set_status (s : string) (t : Task) : Task :=
  mkTask (t_id t) (t_title t) (t_description t) (t_assignedTo t)
         (t_createdBy t) s (t_priority t) (t_createdAt t) (t_updatedAt t)
         (t_context t).

Definition set_updatedAt (dt : datetime) (t : Task) : Task :=
  mkTask (t_id t) (t_title t) (t_description t) (t_assignedTo t)
         (t_createdBy t) (t_status t) (t_priority t) (t_createdAt t) dt
         (t_context t).

Definition is_completed (status : option string) : bool :=
  match status with
  | Some s => s =? "completed"
  | None => false
  end.

Definition update_task (task_id : string) (status notes : option string)
  : M response :=
  all_tasks <- gets tasks ;;
  match next_task task_id all_tasks with
  | None => ret (RError "Task not found")
  | Some (pos, task) =>
      let task :=
        match status with
        | Some s => set_status s task
        | None => task
        end in
      dt <- datetime_now ;;
      let task := set_updatedAt dt task in
      modify (fun w => set_tasks (store_at pos task (tasks w)) w) ;;;
      (if is_completed status
       then
         let notes := get_default notes EmptyString in
         i <- generate_id ;;
         ts <- datetime_now ;;
         messages_append
           (mkMessage i (t_assignedTo task) (t_createdBy task)
                      (completed_content (t_title task) notes) ts false)
       else ret tt) ;;;
      ret (RTaskUpdated task)
  end.

Definition update_context (new_branch : option string)
    (new_files new_changes : option (list string))
    (new_notes : option string) : M response :=
  c <- gets shared_context ;;
  let c :=
    match new_branch with
    | Some v => mkContext v (activeFiles c) (recentChanges c) (notes c)
                          (lastUpdated c)
    | None => c
    end in
  let c :=
    match new_files with
    | Some v => mkContext (currentBranch c) v (recentChanges c) (notes c)
                          (lastUpdated c)
    | None => c
    end in
  let c :=
    match new_changes with
    | Some v => mkContext (currentBranch c) (activeFiles c) v (notes c)
                          (lastUpdated c)
    | None => c
    end in
  let c :=
    match new_notes with
    | Some v => mkContext (currentBranch c) (activeFiles c) (recentChanges c)
                          v (lastUpdated c)
    | None => c
    end in
  dt <- datetime_now ;;
  let c := mkContext (currentBranch c) (activeFiles c) (recentChanges c)
                     (notes c) dt in
  modify (set_shared_context c) ;;;
  ret (RContextUpdated c).

Definition get_context : M response :=
  c <- gets shared_context ;;
  ret (RContext c).

Definition announce_presence (agent status : string) : M response :=
  i <- generate_id ;;
  ts <- datetime_now ;;
  messages_append
    (mkMessage i agent "all" (online_content agent status) ts false) ;;;
  ret RSuccess.

Definition call_tool (r : request) : M response :=
  match r with
  | SendMessage from to content => send_message from to content
  | GetMessages agent unreadOnly => get_messages agent unreadOnly
  | MarkMessagesRead ids => mark_messages_read ids
  | CreateTask title description assignedTo createdBy priority context =>
      create_task title description assignedTo createdBy priority context
  | GetTasks agent filter status => get_tasks agent filter status
  | UpdateTask task_id status notes => update_task task_id status notes
  | UpdateContext b f c n => update_context b f c n
  | GetContext => get_context
  | AnnouncePresence agent status _ => announce_presence agent status
  | UnknownTool name => ret (RError ("Unknown tool: " ++ name))
  end.

(** The store when the module has been loaded: the one clock reading of
    the [shared_context] initialiser has been consumed. *)
Definition initial_world (e : Env) : World :=
  mkWorld [] [] (mkContext EmptyString [] [] EmptyString (clock e 0)) 1 0.

(** The world after a sequence of tool calls, replies dropped. *)
Fixpoint run (e : Env) (rs : list request) (w : World) : World :=
  match rs with
  | [] => w
  | r :: rest => run e rest (snd (call_tool r e w))
  end.

(* ================================================================= *)
(** ** Vocabulary of the statements *)

Definition response_messages (r : response) : list Message :=
  match r with
  | RMessages _ msgs => msgs
  | _ => []
  end.

Definition response_tasks (r : response) : list Task :=
  match r with
  | RTasks _ ts => ts
  | _ => []
  end.

(** [sub in s] on Python strings. *)
Fixpoint occurs (sub s : string) : bool :=
  prefix sub s
  || match s with
     | EmptyString => false
     | String _ s' => occurs sub s'
     end.

Definition contains (sub s : string) : Prop :=
  exists before after, s = before ++ sub ++ after.

(** The identifier [generate_id] builds from the clock reading number
    [tick] and the UUID number [draw]. *)
Definition id_at (e : Env) (tick draw : nat) : string :=
  format_id (timestamp_ms (clock e tick)) (substring 0 9 (hex (uuid e draw))).

(** The message [send_message] appends in world [w]. *)
Definition sent_message (e : Env) (w : World) (from to content : string)
  : Message :=
  mkMessage (id_at e (ticks w) (draws w)) from to content
            (clock e (1 + ticks w)) false.

(** The task [create_task] appends in world [w], and the notification that
    goes with it. *)
Definition created_task (e : Env) (w : World)
    (title description assignedTo createdBy : string)
    (priority : option string) (context : option json) : Task :=
  mkTask (id_at e (ticks w) (draws w)) title description assignedTo createdBy
         "pending" (get_default priority "medium")
         (clock e (1 + ticks w)) (clock e (2 + ticks w))
         (get_default context (JObject [])).

Definition task_notification (e : Env) (w : World)
    (title assignedTo createdBy : string) (priority : option string)
  : Message :=
  mkMessage (id_at e (3 + ticks w) (1 + draws w)) createdBy assignedTo
            (new_task_content title (get_default priority "medium"))
            (clock e (4 + ticks w)) false.

(** The task object after [update_task] has written to it in world [w],
    and the completion notification built from it. *)
Definition updated_task (e : Env) (w : World) (status : option string)
    (task : Task) : Task :=
  set_updatedAt (clock e (ticks w))
    match status with
    | Some s => set_status s task
    | None => task
    end.

Definition completion_notification (e : Env) (w : World)
    (task : Task) (notes : option string) : Message :=
  mkMessage (id_at e (1 + ticks w) (draws w))
            (t_assignedTo task) (t_createdBy task)
            (completed_content (t_title task) (get_default notes EmptyString))
            (clock e (2 + ticks w)) false.

(** The message [announce_presence] appends in world [w]. *)
Definition presence_message (e : Env) (w : World) (agent status : string)
  : Message :=
  mkMessage (id_at e (ticks w) (draws w)) agent "all"
            (online_content agent status) (clock e (1 + ticks w)) false.

(** The context [update_context] stores in world [w]. *)
Definition merged_context (e : Env) (w : World)
    (new_branch : option string) (new_files new_changes : option (list string))
    (new_notes : option string) : SharedContext :=
  let c := shared_context w in
  mkContext (get_default new_branch (currentBranch c))
            (get_default new_files (activeFiles c))
            (get_default new_changes (recentChanges c))
            (get_default new_notes (notes c))
            (clock e (ticks w)).

(** What one pass of the marking loop does to a message, and how many
    stored messages carry one of the given ids. *)
Definition marked_by (ids : list string) (m : Message) : Message :=
  if in_list (m_id m) ids then mark_read m else m.

Definition matched (ids : list string) (msgs : list Message) : nat :=
  List.length (List.filter (fun m => in_list (m_id m) ids) msgs).

(** What the specification says a listing of messages selects. *)
Definition listed (agent : string) (unreadOnly : option bool) (m : Message)
  : bool :=
  ((m_to m =? agent) || (m_to m =? "all"))
  && match unreadOnly with
     | Some true => negb (m_read m)
     | _ => true
     end.

(** The role filters the specification names, and what each selects. *)
Inductive role_filter : Type := Assigned | Created | AllRoles.

Definition filter_name (rf : role_filter) : string :=
  match rf with
  | Assigned => "assigned"
  | Created => "created"
  | AllRoles => "all"
  end.

Definition role_selects (rf : role_filter) (agent : string) (t : Task) : bool :=
  match rf with
  | Assigned => t_assignedTo t =? agent
  | Created => t_createdBy t =? agent
  | AllRoles => true
  end.

Definition status_selects (status : option string) (t : Task) : bool :=
  match status with
  | None => true
  | Some s => if s =? "all" then true else t_status t =? s
  end.

(** The role test [get_tasks] applies for a raw [filter] value. *)
Definition role_test (filter_type agent : string) (t : Task) : bool :=
  if filter_type =? "assigned" then t_assignedTo t =? agent
  else if filter_type =? "created" then t_createdBy t =? agent
  else true.

(** An environment whose clock stands still and whose UUIDs differ only
    below their first nine hexadecimal digits. *)
Definition frozen_env : Env :=
  mkEnv (fun _ => 1700000000000000%Z) (fun n => N.of_nat n).

(** An environment whose clock advances by one microsecond per reading and
    whose UUIDs differ in their leading digits. *)
Definition ticking_env : Env :=
  mkEnv (fun n => (1700000000000000 + Z.of_nat n)%Z)
        (fun n => (N.of_nat (S n) * 2 ^ 100)%N).


(** A world holding one message that has been read. *)
Definition read_world : World :=
  mkWorld [mkMessage "m1" "cascade" "codex" "hello" 0%Z true] []
          (mkContext EmptyString [] [] EmptyString 0%Z) 1 0.

(* ================================================================= *)
(** ** The dispatcher on raw arguments *)

(** The [arguments] dict of a call, for dicts whose present keys hold a
    value of the type the tool schemas declare for that key: every key any
    tool reads is a field, [None] when the dict lacks it.  Nothing is
    required here; a subscript on a missing key raises. *)
Record Arguments : Type := mkArguments {
  arg_from : option string;
  arg_to : option string;
  arg_content : option string;
  arg_agent : option string;
  arg_unreadOnly : option bool;
  arg_messageIds : option (list string);
  arg_title : option string;
  arg_description : option string;
  arg_assignedTo : option string;
  arg_createdBy : option string;
  arg_priority : option string;
  arg_context : option json;
  arg_filter : option string;
  arg_status : option string;
  arg_taskId : option string;
  arg_notes : option string;
  arg_currentBranch : option string;
  arg_activeFiles : option (list string);
  arg_recentChanges : option (list string);
  arg_workingOn : option (list string)
}.

Definition is_some {A} (o : option A) : bool :=
  match o with
  | Some _ => true
  | None => false
  end.

(** [key in arguments] *)
Definition has_key (key : string) (a : Arguments) : bool :=
  if key =? "from" then is_some (arg_from a)
  else if key =? "to" then is_some (arg_to a)
  else if key =? "content" then is_some (arg_content a)
  else if key =? "agent" then is_some (arg_agent a)
  else if key =? "unreadOnly" then is_some (arg_unreadOnly a)
  else if key =? "messageIds" then is_some (arg_messageIds a)
  else if key =? "title" then is_some (arg_title a)
  else if key =? "description" then is_some (arg_description a)
  else if key =? "assignedTo" then is_some (arg_assignedTo a)
  else if key =? "createdBy" then is_some (arg_createdBy a)
  else if key =? "priority" then is_some (arg_priority a)
  else if key =? "context" then is_some (arg_context a)
  else if key =? "filter" then is_some (arg_filter a)
  else if key =? "status" then is_some (arg_status a)
  else if key =? "taskId" then is_some (arg_taskId a)
  else if key =? "notes" then is_some (arg_notes a)
  else if key =? "currentBranch" then is_some (arg_currentBranch a)
  else if key =? "activeFiles" then is_some (arg_activeFiles a)
  else if key =? "recentChanges" then is_some (arg_recentChanges a)
  else if key =? "workingOn" then is_some (arg_workingOn a)
  else false.

(** How a tool body ends: with its payload, or with the [KeyError] of a
    subscript on a missing key.  What was done before the error stays
    done, so the world is returned in both cases. *)
Inductive result (A : Type) : Type :=
| Returned (a : A)
| KeyError (key : string).
Arguments Returned {A} a.
Arguments KeyError {A} key.

Definition MX (A : Type) : Type := Env -> World -> result A * World.

Definition retx {A} (a : A) : MX A := fun _ w => (Returned a, w).

Definition bindx {A B} (m : MX A) (k : A -> MX B) : MX B :=
  fun e w =>
    match m e w with
    | (Returned a, w') => k a e w'
    | (KeyError key, w') => (KeyError key, w')
    end.

Notation "x <~ m ;; k" := (bindx m (fun x => k))
  (at level 61, m at next level, right associativity).
Notation "m ;;~ k" := (bindx m (fun _ => k))
  (at level 61, right associativity).

Definition lift {A} (m : M A) : MX A :=
  fun e w => let (a, w') := m e w in (Returned a, w').

(** [arguments[key]] *)
Definition subscript {A} (key : string) (o : option A) : MX A :=
  fun _ w =>
    match o with
    | Some v => (Returned v, w)
    | None => (KeyError key, w)
    end.

(** [call_tool(name, arguments)] as the source has it: the cascade of
    comparisons on [name], each branch reading its keys in the order the
    source evaluates them.  Where a branch reads all its subscripted keys
    before it does anything else, the rest of the branch is the tool
    above. *)
Definition call_tool_named (name : string) (a : Arguments) : MX response :=
  if name =? "send_message" then
    i <~ lift generate_id ;;
    from <~ subscript "from" (arg_from a) ;;
    to <~ subscript "to" (arg_to a) ;;
    content <~ subscript "content" (arg_content a) ;;
    ts <~ lift datetime_now ;;
    let message := mkMessage i from to content ts false in
    lift (messages_append message) ;;~
    retx (RMessageSent (m_id message))
  else if name =? "get_messages" then
    agent <~ subscript "agent" (arg_agent a) ;;
    lift (get_messages agent (arg_unreadOnly a))
  else if name =? "mark_messages_read" then
    ids <~ subscript "messageIds" (arg_messageIds a) ;;
    lift (mark_messages_read ids)
  else if name =? "create_task" then
    i <~ lift generate_id ;;
    title <~ subscript "title" (arg_title a) ;;
    description <~ subscript "description" (arg_description a) ;;
    assignedTo <~ subscript "assignedTo" (arg_assignedTo a) ;;
    createdBy <~ subscript "createdBy" (arg_createdBy a) ;;
    createdAt <~ lift datetime_now ;;
    updatedAt <~ lift datetime_now ;;
    let task :=
      mkTask i title description assignedTo createdBy "pending"
             (get_default (arg_priority a) "medium") createdAt updatedAt
             (get_default (arg_context a) (JObject [])) in
    lift (tasks_append task) ;;~
    j <~ lift generate_id ;;
    ts <~ lift datetime_now ;;
    lift (messages_append
            (mkMessage j (t_createdBy task) (t_assignedTo task)
                       (new_task_content (t_title task) (t_priority task))
                       ts false)) ;;~
    retx (RTaskCreated (t_id task))
  else if name =? "get_tasks" then
    agent <~ subscript "agent" (arg_agent a) ;;
    lift (get_tasks agent (arg_filter a) (arg_status a))
  else if name =? "update_task" then
    task_id <~ subscript "taskId" (arg_taskId a) ;;
    lift (update_task task_id (arg_status a) (arg_notes a))
  else if name =? "update_context" then
    lift (update_context (arg_currentBranch a) (arg_activeFiles a)
                         (arg_recentChanges a) (arg_notes a))
  else if name =? "get_context" then
    lift get_context
  else if name =? "announce_presence" then
    i <~ lift generate_id ;;
    from <~ subscript "agent" (arg_agent a) ;;
    agent <~ subscript "agent" (arg_agent a) ;;
    status <~ subscript "status" (arg_status a) ;;
    ts <~ lift datetime_now ;;
    lift (messages_append
            (mkMessage i from "all" (online_content agent status) ts false)) ;;~
    retx RSuccess
  else
    retx (RError ("Unknown tool: " ++ name)).

(** The name and the [arguments] dict a typed request stands for. *)
Definition request_name (r : request) : string :=
  match r with
  | SendMessage _ _ _ => "send_message"
  | GetMessages _ _ => "get_messages"
  | MarkMessagesRead _ => "mark_messages_read"
  | CreateTask _ _ _ _ _ _ => "create_task"
  | GetTasks _ _ _ => "get_tasks"
  | UpdateTask _ _ _ => "update_task"
  | UpdateContext _ _ _ _ => "update_context"
  | GetContext => "get_context"
  | AnnouncePresence _ _ _ => "announce_presence"
  | UnknownTool name => name
  end.

Definition no_arguments : Arguments :=
  mkArguments None None None None None None None None None None
              None None None None None None None None None None.

Definition request_arguments (r : request) : Arguments :=
  match r with
  | SendMessage from to content =>
      mkArguments (Some from) (Some to) (Some content) None None None None
                  None None None None None None None None None None None None
                  None
  | GetMessages agent unreadOnly =>
      mkArguments None None None (Some agent) unreadOnly None None None None
                  None None None None None None None None None None None
  | MarkMessagesRead ids =>
      mkArguments None None None None None (Some ids) None None None None
                  None None None None None None None None None None
  | CreateTask title description assignedTo createdBy priority context =>
      mkArguments None None None None None None (Some title)
                  (Some description) (Some assignedTo) (Some createdBy)
                  priority context None None None None None None None None
  | GetTasks agent filter status =>
      mkArguments None None None (Some agent) None None None None None None
                  None None filter status None None None None None None
  | UpdateTask task_id status notes =>
      mkArguments None None None None None None None None None None None
                  None None status (Some task_id) notes None None None None
  | UpdateContext b f c n =>
      mkArguments None None None None None None None None None None None
                  None None None None n b f c None
  | GetContext => no_arguments
  | AnnouncePresence agent status workingOn =>
      mkArguments None None None (Some agent) None None None None None None
                  None None None (Some status) None None None None None
                  workingOn
  | UnknownTool _ => no_arguments
  end.

(* ================================================================= *)
(** ** The tool and resource catalogues *)

Inductive schema_type : Type :=
| TString
| TBoolean
| TObject
| TArrayOfString.

(** One entry of a schema's [properties]; descriptions are left out. *)
Record Property : Type := mkProperty {
  p_key : string;
  p_type : schema_type;
  p_enum : list string;
  p_default : option json
}.

Definition prop (key : string) (ty : schema_type) : Property :=
  mkProperty key ty [] None.

Definition prop_enum (key : string) (values : list string) : Property :=
  mkProperty key TString values None.

Record Tool : Type := mkTool {
  tool_name : string;
  properties : list Property;
  required : list string
}.

Definition list_tools : list Tool :=
  [ mkTool "send_message"
           [prop "from" TString; prop "to" TString; prop "content" TString]
           ["from"; "to"; "content"];
    mkTool "get_messages"
           [prop "agent" TString;
            mkProperty "unreadOnly" TBoolean [] (Some (JBool false))]
           ["agent"];
    mkTool "mark_messages_read"
           [prop "messageIds" TArrayOfString]
           ["messageIds"];
    mkTool "create_task"
           [prop "title" TString; prop "description" TString;
            prop "assignedTo" TString; prop "createdBy" TString;
            prop_enum "priority" ["low"; "medium"; "high"; "urgent"];
            prop "context" TObject]
           ["title"; "description"; "assignedTo"; "createdBy"];
    mkTool "get_tasks"
           [prop "agent" TString;
            prop_enum "filter" ["assigned"; "created"; "all"];
            prop_enum "status"
                      ["pending"; "in_progress"; "completed"; "blocked"; "all"]]
           ["agent"];
    mkTool "update_task"
           [prop "taskId" TString;
            prop_enum "status"
                      ["pending"; "in_progress"; "completed"; "blocked"];
            prop "notes" TString]
           ["taskId"];
    mkTool "update_context"
           [prop "currentBranch" TString; prop "activeFiles" TArrayOfString;
            prop "recentChanges" TArrayOfString; prop "notes" TString]
           [];
    mkTool "get_context" [] [];
    mkTool "announce_presence"
           [prop "agent" TString; prop "status" TString;
            prop "workingOn" TArrayOfString]
           ["agent"; "status"] ].

(** The first key of [keys] that [arguments] lacks. *)
Fixpoint first_missing (keys : list string) (a : Arguments) : option string :=
  match keys with
  | [] => None
  | key :: rest => if has_key key a then first_missing rest a else Some key
  end.





(** The stores of a world, apart from the oracle counters. *)
Definition stores (w : World)
  : list Message * list Task * SharedContext :=
  (messages w, tasks w, shared_context w).

(** A message as it may stand later: itself, or itself marked read. *)
Definition later_message (m m' : Message) : Prop :=
  m' = m \/ m' = mark_read m.

(** The fields of a task that no tool writes after creation. *)
Definition task_identity (t : Task)
  : string * string * string * string * string * string * datetime * json :=
  (t_id t, t_title t, t_description t, t_assignedTo t, t_createdBy t,
   t_priority t, t_createdAt t, t_context t).



(* ================================================================= *)
(** ** Running the tools *)


Lemma send_message_run from to content e w :
  send_message from to content e w =
  (RMessageSent (id_at e (ticks w) (draws w)),
   mkWorld (messages w ++ [sent_message e w from to content])
           (tasks w) (shared_context w) (2 + ticks w) (1 + draws w)).
Proof. reflexivity. Qed.

Lemma create_task_run title description assignedTo createdBy priority
      context e w :
  create_task title description assignedTo createdBy priority context e w =
  (RTaskCreated (id_at e (ticks w) (draws w)),
   mkWorld
     (messages w ++ [task_notification e w title assignedTo createdBy priority])
     (tasks w ++ [created_task e w title description assignedTo createdBy
                               priority context])
     (shared_context w) (5 + ticks w) (2 + draws w)).
Proof. reflexivity. Qed.

Lemma update_task_run_absent task_id status notes e w :
  next_task task_id (tasks w) = None ->
  update_task task_id status notes e w = (RError "Task not found", w).
Proof. intro H. unfold update_task, bind, gets. now rewrite H. Qed.

Lemma update_task_run_completed task_id notes e w pos task :
  next_task task_id (tasks w) = Some (pos, task) ->
  let task' := updated_task e w (Some "completed") task in
  update_task task_id (Some "completed") notes e w =
  (RTaskUpdated task',
   mkWorld (messages w ++ [completion_notification e w task' notes])
           (store_at pos task' (tasks w))
           (shared_context w) (3 + ticks w) (1 + draws w)).
Proof. intro H. unfold update_task, bind, gets. now rewrite H. Qed.

Lemma update_task_run_other task_id status notes e w pos task :
  next_task task_id (tasks w) = Some (pos, task) ->
  status <> Some "completed" ->
  let task' := updated_task e w status task in
  update_task task_id status notes e w =
  (RTaskUpdated task',
   mkWorld (messages w) (store_at pos task' (tasks w))
           (shared_context w) (1 + ticks w) (draws w)).
Proof.
  intros H Hs. unfold update_task, bind, gets. rewrite H.
  destruct status as [s|]; [|reflexivity].
  unfold is_completed. destruct (String.eqb_spec s "completed") as [->|_].
  - now destruct Hs.
  - reflexivity.
Qed.

Lemma option_eq_dec_completed (status : option string) :
  {status = Some "completed"} + {status <> Some "completed"}.
Proof.
  destruct status as [s|]; [|right; discriminate].
  destruct (String.string_dec s "completed") as [->|H];
    [now left | right; congruence].
Qed.

Lemma update_context_run b f c n e w :
  update_context b f c n e w =
  (RContextUpdated (merged_context e w b f c n),
   mkWorld (messages w) (tasks w) (merged_context e w b f c n)
           (1 + ticks w) (draws w)).
Proof. destruct b, f, c, n; reflexivity. Qed.

Lemma announce_presence_run agent status e w :
  announce_presence agent status e w =
  (RSuccess,
   mkWorld (messages w ++ [presence_message e w agent status])
           (tasks w) (shared_context w) (2 + ticks w) (1 + draws w)).
Proof. reflexivity. Qed.

Lemma filter_filter {A} (f g : A -> bool) (l : list A) :
  List.filter g (List.filter f l) = List.filter (fun x => f x && g x) l.
Proof.
  induction l as [|x l IH]; simpl; [reflexivity|].
  destruct (f x); simpl; [destruct (g x)|]; now rewrite IH.
Qed.

Lemma filter_true {A} (l : list A) : List.filter (fun _ => true) l = l.
Proof. induction l as [|x l IH]; simpl; congruence. Qed.

Lemma get_messages_run agent unreadOnly e w :
  get_messages agent unreadOnly e w =
  (RMessages (List.length (List.filter (listed agent unreadOnly) (messages w)))
             (List.filter (listed agent unreadOnly) (messages w)),
   w).
Proof.
  unfold get_messages, bind, gets, ret, listed.
  destruct unreadOnly as [[|]|]; simpl.
  - now rewrite filter_filter.
  - rewrite <- (filter_filter _ (fun _ => true)), filter_true. reflexivity.
  - rewrite <- (filter_filter _ (fun _ => true)), filter_true. reflexivity.
Qed.

(* ================================================================= *)
(** ** Message store: listing *)

(** C5: [get_messages(agent, unreadOnly)] returns, in insertion order,
    exactly the stored messages addressed to [agent] or to ["all"],
    restricted to the unread ones when [unreadOnly] is true, together with
    their number, and leaves the whole world as it was. *)
Theorem get_messages_lists_addressed e w agent unreadOnly :
  get_messages agent unreadOnly e w =
  (RMessages (List.length (List.filter (listed agent unreadOnly) (messages w)))
             (List.filter (listed agent unreadOnly) (messages w)),
   w)
  /\ (forall m,
        In m (response_messages (fst (get_messages agent unreadOnly e w))) <->
        In m (messages w)
        /\ (m_to m = agent \/ m_to m = "all")
        /\ (unreadOnly = Some true -> m_read m = false)).
Proof.
  split; [apply get_messages_run|].
  intro m. rewrite get_messages_run. simpl. rewrite filter_In. unfold listed.
  rewrite andb_true_iff, orb_true_iff, !String.eqb_eq.
  split.
  - intros (Hin & Hto & Hr). repeat split; try assumption.
    intros ->. now apply negb_true_iff.
  - intros (Hin & Hto & Hr). repeat split; try assumption.
    destruct unreadOnly as [[|]|]; try reflexivity.
    apply negb_true_iff. now apply Hr.
Qed.

(* ================================================================= *)
(** ** Message store: marking as read *)

Lemma mark_loop_spec ids msgs n :
  mark_loop ids msgs n = (map (marked_by ids) msgs, n + matched ids msgs).
Proof.
  revert n. unfold matched.
  induction msgs as [|m msgs IH]; intro n; simpl.
  - now rewrite Nat.add_0_r.
  - unfold marked_by at 1.
    destruct (in_list (m_id m) ids); rewrite IH; simpl; f_equal; lia.
Qed.

Lemma marked_by_id ids m : m_id (marked_by ids m) = m_id m.
Proof. unfold marked_by. now destruct (in_list (m_id m) ids). Qed.



Lemma mark_messages_read_run ids e w :
  mark_messages_read ids e w =
  (RMarkedRead (matched ids (messages w)),
   set_messages (map (marked_by ids) (messages w)) w).
Proof.
  unfold mark_messages_read, bind, gets.
  rewrite mark_loop_spec. reflexivity.
Qed.

Lemma mark_read_of_read m : m_read m = true -> mark_read m = m.
Proof. destruct m; simpl; now intros ->. Qed.

Lemma marked_by_of_read ids m : m_read m = true -> marked_by ids m = m.
Proof.
  intro H. unfold marked_by.
  destruct (in_list (m_id m) ids); [now apply mark_read_of_read|reflexivity].
Qed.



(* ================================================================= *)
(** ** The read flag never goes back *)

Lemma nth_error_app_old {A} (l : list A) x i y :
  nth_error l i = Some y -> nth_error (l ++ [x]) i = Some y.
Proof.
  intro H. rewrite nth_error_app1; [exact H|].
  apply nth_error_Some. congruence.
Qed.

(** Messages are only ever appended or marked: a message that is read
    stays in its place, unchanged, across any single tool call. *)
Lemma call_tool_keeps_read e r w i m :
  nth_error (messages w) i = Some m ->
  m_read m = true ->
  nth_error (messages (snd (call_tool r e w))) i = Some m.
Proof.
  intros Hn Hr.
  destruct r; cbn [call_tool].
  - rewrite send_message_run. now apply nth_error_app_old.
  - now rewrite get_messages_run.
  - rewrite mark_messages_read_run. cbn [snd set_messages messages].
    rewrite nth_error_map, Hn. cbn [option_map]. f_equal.
    now apply marked_by_of_read.
  - rewrite create_task_run. now apply nth_error_app_old.
  - exact Hn.
  - destruct (next_task taskId (tasks w)) as [[pos task]|] eqn:E.
    + destruct (option_eq_dec_completed status) as [->|Hs].
      * rewrite (update_task_run_completed _ _ _ _ _ _ E).
        now apply nth_error_app_old.
      * now rewrite (update_task_run_other _ _ _ _ _ _ _ E Hs).
    + now rewrite update_task_run_absent.
  - now rewrite update_context_run.
  - exact Hn.
  - rewrite announce_presence_run. now apply nth_error_app_old.
  - exact Hn.
Qed.

(** C4: once a stored message has [read = true], no sequence of tool calls
    of the catalogue sets it back: the message keeps its position and stays
    read (indeed it is not changed at all). *)
Theorem read_flag_monotonic e rs w i m :
  nth_error (messages w) i = Some m ->
  m_read m = true ->
  exists m',
    nth_error (messages (run e rs w)) i = Some m'
    /\ m_read m' = true /\ m' = m.
Proof.
  revert w. induction rs as [|r rs IH]; intros w Hn Hr; simpl.
  - now exists m.
  - apply IH; [|exact Hr]. now apply call_tool_keeps_read.
Qed.

(* ================================================================= *)
(** ** Strings *)

Lemma append_assoc (a b c : string) : (a ++ b) ++ c = a ++ b ++ c.
Proof. induction a as [|x a IH]; simpl; congruence. Qed.

Lemma append_nil_r (a : string) : a ++ EmptyString = a.
Proof. induction a as [|x a IH]; simpl; congruence. Qed.


Lemma contains_here before sub after : contains sub (before ++ sub ++ after).
Proof. now exists before, after. Qed.

Lemma contains_append_l pre sub s : contains sub s -> contains sub (pre ++ s).
Proof.
  intros (b & a & ->). exists (pre ++ b), a. now rewrite append_assoc.
Qed.

Lemma contains_append_r sub s post : contains sub s -> contains sub (s ++ post).
Proof.
  intros (b & a & ->). exists b, (a ++ post). now rewrite !append_assoc.
Qed.

Lemma contains_empty s : contains EmptyString s.
Proof. exists s, EmptyString. simpl. now rewrite append_nil_r. Qed.

Lemma contains_refl s : contains s s.
Proof. exists EmptyString, EmptyString. simpl. now rewrite append_nil_r. Qed.

Lemma new_task_content_title title priority :
  contains title (new_task_content title priority).
Proof.
  unfold new_task_content.
  do 3 apply contains_append_l. apply (contains_here EmptyString).
Qed.

Lemma new_task_content_priority title priority :
  contains priority (new_task_content title priority).
Proof.
  unfold new_task_content.
  do 6 apply contains_append_l. apply (contains_here EmptyString).
Qed.

Lemma completed_content_title title notes :
  contains title (completed_content title notes).
Proof.
  unfold completed_content.
  do 3 apply contains_append_l. apply (contains_here EmptyString).
Qed.

Lemma completed_content_notes title notes :
  contains notes (completed_content title notes).
Proof.
  unfold completed_content.
  do 5 apply contains_append_l.
  destruct notes as [|c notes]; [apply contains_empty|].
  unfold notes_suffix. apply contains_append_l, contains_refl.
Qed.

(* ================================================================= *)
(** ** Task store: looking a task up *)

Lemma next_task_found task_id ts pos task :
  next_task task_id ts = Some (pos, task) ->
  nth_error ts pos = Some task
  /\ t_id task = task_id
  /\ forall j t, j < pos -> nth_error ts j = Some t -> t_id t <> task_id.
Proof.
  revert pos. induction ts as [|t ts IH]; intros pos; simpl; [discriminate|].
  destruct (String.eqb_spec (t_id t) task_id) as [E|E].
  - intros [= <- <-]. repeat split; [exact E|]. intros j t' Hj. lia.
  - destruct (next_task task_id ts) as [[i t']|]; [|discriminate].
    intros [= <- <-]. destruct (IH i eq_refl) as (Hn & Hid & Hfirst).
    repeat split; try assumption.
    intros [|j] t''; simpl.
    + intros _ [= <-]. exact E.
    + intros Hj. apply Hfirst. lia.
Qed.

Lemma next_task_absent task_id ts :
  (forall t, In t ts -> t_id t <> task_id) ->
  next_task task_id ts = None.
Proof.
  induction ts as [|t ts IH]; intro H; simpl; [reflexivity|].
  destruct (String.eqb_spec (t_id t) task_id) as [E|E].
  - destruct (H t (or_introl eq_refl) E).
  - rewrite IH; [reflexivity|]. intros t' Ht'. apply H. now right.
Qed.

(* ================================================================= *)
(** ** Task store: updating *)

(** C2, as the code has it: on an existing task, [update_task] appends
    exactly one completion notification when the [status] argument is
    supplied and equals ["completed"]: unread, from the task's assignee to
    its creator, its body containing the task title and the text of [notes]
    when that was supplied.  When [status] is absent or different, no
    message is appended, also when the status the task carries over is
    ["completed"]. *)
Theorem update_task_notifies_on_completed_argument
    e w task_id status notes pos task :
  next_task task_id (tasks w) = Some (pos, task) ->
  let (r, w') := update_task task_id status notes e w in
  r = RTaskUpdated (updated_task e w status task)
  /\ t_status (updated_task e w status task)
     = get_default status (t_status task)
  /\ nth_error (tasks w') pos = Some (updated_task e w status task)
  /\ (status = Some "completed" ->
      exists m,
        messages w' = (messages w ++ [m])%list
        /\ m_from m = t_assignedTo task
        /\ m_to m = t_createdBy task
        /\ m_read m = false
        /\ m_content m
           = completed_content (t_title task) (get_default notes EmptyString)
        /\ contains (t_title task) (m_content m)
        /\ (forall n, notes = Some n -> contains n (m_content m)))
  /\ (status <> Some "completed" -> messages w' = messages w).
Proof.
  intro H.
  assert (Hst : forall l, nth_error (tasks w) pos = Some task ->
            nth_error (store_at pos l (tasks w)) pos = Some l).
  { intros l. generalize (tasks w). clear. revert pos.
    induction pos as [|pos IH]; intros [|t ts]; simpl; try discriminate.
    - reflexivity.
    - apply IH. }
  destruct (next_task_found _ _ _ _ H) as (Hn & _ & _).
  destruct (option_eq_dec_completed status) as [->|Hs].
  - rewrite (update_task_run_completed _ notes e _ _ _ H).
    cbn [messages tasks].
    repeat split; [now apply Hst| |intro A; now destruct A].
    intros _. eexists. split; [reflexivity|].
    cbn [m_from m_to m_read m_content completion_notification].
    repeat split.
    + apply completed_content_title.
    + intros n ->. apply completed_content_notes.
  - rewrite (update_task_run_other _ _ notes e _ _ _ H Hs).
    cbn [messages tasks].
    repeat split; [now destruct status|now apply Hst|now intros A].
Qed.

(** C8: [update_task] on an id that no stored task has returns the
    not-found error payload and leaves the world, with its three stores,
    exactly as it was. *)
Theorem update_task_unknown_id e w task_id status notes :
  (forall t, In t (tasks w) -> t_id t <> task_id) ->
  update_task task_id status notes e w = (RError "Task not found", w).
Proof.
  intro H. apply update_task_run_absent. now apply next_task_absent.
Qed.

(* ================================================================= *)
(** ** Task store: creating *)

Lemma task_notification_listed e w title assignedTo createdBy priority :
  listed assignedTo (Some true)
         (task_notification e w title assignedTo createdBy priority) = true.
Proof.
  unfold listed, task_notification. cbn [m_to m_read].
  now rewrite String.eqb_refl.
Qed.

(** C6, as the code has it: [create_task] always returns the new task's
    id, appends one task with status ["pending"] whose [createdAt] and
    [updatedAt] are two successive clock readings, and appends one unread
    notification from the creator to the assignee whose body contains the
    title and the priority; listing the assignee's unread messages right
    afterwards gives what it gave before followed by that notification. *)
Theorem create_task_appends_task_and_notification
    e w title description assignedTo createdBy priority context :
  let (r, w') :=
    create_task title description assignedTo createdBy priority context e w in
  let before := get_messages assignedTo (Some true) e w in
  exists task notif,
    r = RTaskCreated (t_id task)
    /\ tasks w' = (tasks w ++ [task])%list
    /\ t_title task = title /\ t_description task = description
    /\ t_assignedTo task = assignedTo /\ t_createdBy task = createdBy
    /\ t_status task = "pending"
    /\ t_priority task = get_default priority "medium"
    /\ t_createdAt task = clock e (1 + ticks w)
    /\ t_updatedAt task = clock e (2 + ticks w)
    /\ messages w' = (messages w ++ [notif])%list
    /\ m_from notif = createdBy /\ m_to notif = assignedTo
    /\ m_read notif = false
    /\ contains title (m_content notif)
    /\ contains (t_priority task) (m_content notif)
    /\ get_messages assignedTo (Some true) e w'
       = (RMessages (S (List.length (response_messages (fst before))))
                    (response_messages (fst before) ++ [notif])%list,
          w').
Proof.
  rewrite create_task_run.
  exists (created_task e w title description assignedTo createdBy priority
                       context),
         (task_notification e w title assignedTo createdBy priority).
  cbn [created_task task_notification t_id t_title t_description t_assignedTo
       t_createdBy t_status t_priority t_createdAt t_updatedAt tasks messages
       m_from m_to m_read m_content].
  repeat split.
  - apply new_task_content_title.
  - apply new_task_content_priority.
  - rewrite !get_messages_run. cbn [fst response_messages messages].
    rewrite filter_app. cbn [List.filter].
    rewrite task_notification_listed, length_app. cbn [List.length]. now rewrite Nat.add_1_r.
Qed.

(* ================================================================= *)
(** ** Shared context *)

(** C7: [update_context] overwrites each of [currentBranch],
    [activeFiles], [recentChanges] and [notes] exactly when the argument
    record has it, keeps the stored value of every omitted field, and sets
    [lastUpdated] to the clock reading of the call whatever was supplied. *)
Theorem update_context_merges e w b f c n :
  let (r, w') := update_context b f c n e w in
  let old := shared_context w in
  let new := shared_context w' in
  r = RContextUpdated new
  /\ currentBranch new
     = match b with Some v => v | None => currentBranch old end
  /\ activeFiles new
     = match f with Some v => v | None => activeFiles old end
  /\ recentChanges new
     = match c with Some v => v | None => recentChanges old end
  /\ notes new
     = match n with Some v => v | None => notes old end
  /\ lastUpdated new = clock e (ticks w)
  /\ ticks w' = S (ticks w)
  /\ messages w' = messages w /\ tasks w' = tasks w.
Proof. rewrite update_context_run. repeat split. Qed.

(* ================================================================= *)
(** ** Task store: listing *)

Lemma get_tasks_run agent filter status e w :
  get_tasks agent filter status e w =
  (RTasks
     (List.length
        (List.filter
           (fun t => role_test (get_default filter "assigned") agent t
                     && status_selects status t)
           (tasks w)))
     (List.filter
        (fun t => role_test (get_default filter "assigned") agent t
                  && status_selects status t)
        (tasks w)),
   w).
Proof.
  unfold get_tasks, bind, gets, ret, role_test, status_selects.
  set (ft := get_default filter "assigned").
  assert (R : (if ft =? "assigned"
               then List.filter (fun t => t_assignedTo t =? agent) (tasks w)
               else if ft =? "created"
               then List.filter (fun t => t_createdBy t =? agent) (tasks w)
               else tasks w)
              = List.filter
                  (fun t => if ft =? "assigned" then t_assignedTo t =? agent
                            else if ft =? "created" then t_createdBy t =? agent
                            else true) (tasks w)).
  { destruct (ft =? "assigned"); [reflexivity|].
    destruct (ft =? "created"); [reflexivity|].
    now rewrite filter_true. }
  rewrite R. clear R.
  destruct status as [s|]; cbn [get_default].
  - destruct (s =? "all"); cbn [negb].
    + rewrite <- (filter_filter _ (fun _ => true)), filter_true. reflexivity.
    + now rewrite filter_filter.
  - cbn [String.eqb Ascii.eqb Bool.eqb negb].
    rewrite <- (filter_filter _ (fun _ => true)), filter_true. reflexivity.
Qed.

(** C9: [get_tasks] leaves the world as it was and returns, in insertion
    order and with their number, exactly the stored tasks that pass the role
    filter ([assignedTo = agent] for ["assigned"], which is also the
    default, [createdBy = agent] for ["created"], every task for ["all"])
    and whose status is the requested one unless that is ["all"] or absent;
    so [get_tasks(agent, "assigned", "pending")] only returns pending tasks
    assigned to [agent]. *)
Theorem get_tasks_filters_by_role_and_status e w agent status :
  (forall rf,
     get_tasks agent (Some (filter_name rf)) status e w =
     (RTasks
        (List.length
           (List.filter
              (fun t => role_selects rf agent t && status_selects status t)
              (tasks w)))
        (List.filter
           (fun t => role_selects rf agent t && status_selects status t)
           (tasks w)),
      w))
  /\ get_tasks agent None status e w
     = get_tasks agent (Some "assigned") status e w
  /\ (forall t,
        In t (response_tasks
                (fst (get_tasks agent (Some "assigned") (Some "pending") e w)))
        <-> In t (tasks w)
            /\ t_assignedTo t = agent /\ t_status t = "pending").
Proof.
  split; [|split].
  - intro rf. rewrite get_tasks_run. now destruct rf.
  - now rewrite !get_tasks_run.
  - intro t. rewrite get_tasks_run. cbn [fst response_tasks].
    rewrite filter_In, andb_true_iff.
    unfold role_test, status_selects.
    cbn [get_default String.eqb Ascii.eqb Bool.eqb].
    now rewrite !String.eqb_eq.
Qed.

(** C10: a [filter] value other than ["assigned"] and ["created"], so any
    value outside the enumeration, makes [get_tasks] apply no role filter:
    it answers as it does for ["all"]. *)
Theorem get_tasks_unknown_filter_is_all e w agent filter status :
  filter <> "assigned" ->
  filter <> "created" ->
  get_tasks agent (Some filter) status e w
  = get_tasks agent (Some "all") status e w
  /\ response_tasks (fst (get_tasks agent (Some filter) status e w))
     = List.filter (status_selects status) (tasks w).
Proof.
  intros Ha Hc. rewrite !get_tasks_run.
  unfold role_test. cbn [get_default fst response_tasks].
  apply String.eqb_neq in Ha, Hc. rewrite Ha, Hc.
  cbn [String.eqb Ascii.eqb Bool.eqb andb].
  split; reflexivity.
Qed.

(* ================================================================= *)
(** ** Identifiers *)











(* ================================================================= *)
(** ** Where the code departs from the stated properties *)


(** C2 refuted: a task is created and completed; a later [update_task]
    that supplies only [notes] returns the task with its carried-over status
    ["completed"] and appends no message. *)
Lemma update_task_silent_on_carried_status :
  let e := ticking_env in
  let task_id := "1700000000000-000000100" in
  let w2 :=
    run e [CreateTask "Review PR" "look at it" "codex" "cascade" None None;
           UpdateTask task_id (Some "completed") None]
        (initial_world e) in
  let (r, w3) := update_task task_id None (Some "x") e w2 in
  map t_id (tasks w2) = [task_id]
  /\ (exists task, r = RTaskUpdated task /\ t_status task = "completed")
  /\ map t_status (tasks w3) = ["completed"]
  /\ messages w3 = messages w2
  /\ List.length (messages w3) = List.length (messages w2).
Proof.
  vm_compute. repeat split. eexists. split; reflexivity.
Qed.

(** C6 refuted: with a clock that advances between readings the new
    task's [createdAt] and [updatedAt] differ; and after two tasks of the
    same title for the same assignee, the assignee's unread listing holds
    two notifications that mention the title. *)
Lemma create_task_two_readings_two_notifications :
  let e := ticking_env in
  let w1 :=
    run e [CreateTask "Review PR" "first" "codex" "cascade" None None]
        (initial_world e) in
  let (r, w2) :=
    create_task "Review PR" "second" "codex" "cascade" None None e w1 in
  map (fun t => (t_createdAt t =? t_updatedAt t)%Z) (tasks w2)
  = [false; false]
  /\ List.length
       (List.filter
          (fun m => occurs "Review PR" (m_content m))
          (response_messages (fst (get_messages "codex" (Some true) e w2))))
     = 2.
Proof. vm_compute. split; reflexivity. Qed.

(* ================================================================= *)
(** ** The theorems at concrete inputs *)

Lemma update_task_notifies_witness :
  let e := ticking_env in
  let task_id := "1700000000000-000000100" in
  let w :=
    run e [CreateTask "Review PR" "look at it" "codex" "cascade" None None]
        (initial_world e) in
  exists pos task,
    next_task task_id (tasks w) = Some (pos, task)
    /\ exists m,
         messages (snd (update_task task_id (Some "completed") (Some "done")
                                    e w))
         = (messages w ++ [m])%list
         /\ m_from m = "codex" /\ m_to m = "cascade"
         /\ contains "Review PR" (m_content m)
         /\ contains "done" (m_content m).
Proof.
  intros e task_id w.
  exists 0, (created_task e (initial_world e) "Review PR" "look at it" "codex"
                          "cascade" None None).
  split; [reflexivity|].
  pose proof (update_task_notifies_on_completed_argument
                e w task_id (Some "completed") (Some "done") 0 _ eq_refl) as H.
  destruct (update_task task_id (Some "completed") (Some "done") e w)
    as [r w'].
  destruct H as (_ & _ & _ & H & _).
  destruct (H eq_refl) as (m & Hm & Hf & Ht & _ & _ & Htitle & Hnotes).
  exists m. repeat split; try assumption.
  now apply Hnotes.
Defined.

Lemma update_task_unknown_id_witness :
  let e := ticking_env in
  let w :=
    run e [CreateTask "Review PR" "look at it" "codex" "cascade" None None;
           SendMessage "cascade" "codex" "hello"]
        (initial_world e) in
  (forall t, In t (tasks w) -> t_id t <> "no-such-task")
  /\ update_task "no-such-task" (Some "completed") (Some "done") e w
     = (RError "Task not found", w).
Proof.
  intros e w.
  assert (H : forall t, In t (tasks w) -> t_id t <> "no-such-task").
  { intros t [<-|[]]. vm_compute. discriminate. }
  split; [exact H|].
  exact (update_task_unknown_id e w "no-such-task" (Some "completed")
                                (Some "done") H).
Defined.

Lemma read_flag_monotonic_witness :
  let rs := [MarkMessagesRead ["m1"];
             SendMessage "codex" "cascade" "hi";
             CreateTask "Review PR" "look at it" "codex" "cascade" None None;
             UpdateContext (Some "main") None None None;
             AnnouncePresence "codex" "ready" None] in
  let m := mkMessage "m1" "cascade" "codex" "hello" 0%Z true in
  nth_error (messages read_world) 0 = Some m
  /\ m_read m = true
  /\ exists m',
       nth_error (messages (run ticking_env rs read_world)) 0 = Some m'
       /\ m_read m' = true /\ m' = m.
Proof.
  intros rs m.
  split; [reflexivity|split; [reflexivity|]].
  apply (read_flag_monotonic ticking_env rs read_world 0 m); reflexivity.
Defined.

Lemma get_tasks_unknown_filter_witness :
  let e := ticking_env in
  let w :=
    run e [CreateTask "Review PR" "look at it" "codex" "cascade" None None;
           CreateTask "Write docs" "readme" "cascade" "codex" None None]
        (initial_world e) in
  "mine" <> "assigned" /\ "mine" <> "created"
  /\ get_tasks "codex" (Some "mine") (Some "pending") e w
     = get_tasks "codex" (Some "all") (Some "pending") e w
  /\ response_tasks (fst (get_tasks "codex" (Some "mine") (Some "pending") e w))
     = List.filter (status_selects (Some "pending")) (tasks w).
Proof.
  intros e w.
  assert (Ha : "mine" <> "assigned") by discriminate.
  assert (Hc : "mine" <> "created") by discriminate.
  split; [exact Ha|split; [exact Hc|]].
  exact (get_tasks_unknown_filter_is_all e w "codex" "mine" (Some "pending")
                                         Ha Hc).
Defined.


(** The hand-off scenario: cascade creates a task for codex, codex finds
    it among its pending tasks and completes it, and cascade's unread
    listing then holds exactly one message, the completion notice naming
    the title. *)
Example handoff_scenario :
  let e := ticking_env in
  let w1 :=
    run e [CreateTask "Review PR" "look at it" "codex" "cascade" None None]
        (initial_world e) in
  let seen :=
    response_tasks
      (fst (get_tasks "codex" (Some "assigned") (Some "pending") e w1)) in
  let w2 :=
    run e (map (fun t => UpdateTask (t_id t) (Some "completed") None) seen)
        w1 in
  let inbox :=
    response_messages (fst (get_messages "cascade" (Some true) e w2)) in
  map t_title seen = ["Review PR"]
  /\ map m_from inbox = ["codex"]
  /\ map (fun m => occurs "Review PR" (m_content m)) inbox = [true].
Proof. vm_compute. repeat split. Qed.

(** Two partial context updates in a row: each field keeps what was last
    written to it. *)
Example update_context_scenario :
  let e := ticking_env in
  let w :=
    run e [UpdateContext None None None (Some "a");
           UpdateContext (Some "main") None None None]
        (initial_world e) in
  notes (shared_context w) = "a"
  /\ currentBranch (shared_context w) = "main"
  /\ activeFiles (shared_context w) = [].
Proof. vm_compute. repeat split. Qed.

(* ================================================================= *)
(** ** Delivery *)

Lemma filter_snoc {A} (f : A -> bool) (l : list A) (x : A) :
  List.filter f (l ++ [x]) = (List.filter f l ++ if f x then [x] else [])%list.
Proof. now rewrite filter_app. Qed.

Lemma length_snoc {A} (l : list A) (x : A) :
  List.length (l ++ [x]) = S (List.length l).
Proof. rewrite length_app. simpl. lia. Qed.

(** Listing after one message has been appended. *)
Lemma get_messages_after_append agent unreadOnly e w m ts c tk dr :
  get_messages agent unreadOnly e (mkWorld (messages w ++ [m]) ts c tk dr) =
  (if listed agent unreadOnly m
   then RMessages
          (S (List.length (response_messages
                             (fst (get_messages agent unreadOnly e w)))))
          (response_messages (fst (get_messages agent unreadOnly e w)) ++ [m])
   else fst (get_messages agent unreadOnly e w),
   mkWorld (messages w ++ [m]) ts c tk dr).
Proof.
  rewrite !get_messages_run. cbn [messages fst response_messages].
  rewrite filter_snoc.
  destruct (listed agent unreadOnly m).
  - now rewrite length_snoc.
  - now rewrite app_nil_r.
Qed.

(** X1: [send_message] appends exactly one unread message carrying the
    given sender, recipient and content, returns its id, and leaves tasks
    and shared context alone; the recipient's listing, unread-only or not,
    is afterwards what it was before followed by that message. *)
Theorem send_message_delivers e w from to content unreadOnly :
  let (r, w') := send_message from to content e w in
  exists m,
    r = RMessageSent (m_id m)
    /\ messages w' = (messages w ++ [m])%list
    /\ m_from m = from /\ m_to m = to /\ m_content m = content
    /\ m_read m = false
    /\ tasks w' = tasks w /\ shared_context w' = shared_context w
    /\ get_messages to unreadOnly e w'
       = (RMessages
            (S (List.length (response_messages
                               (fst (get_messages to unreadOnly e w)))))
            (response_messages (fst (get_messages to unreadOnly e w)) ++ [m]),
          w').
Proof.
  rewrite send_message_run.
  exists (sent_message e w from to content).
  repeat split.
  rewrite get_messages_after_append.
  assert (L : listed to unreadOnly (sent_message e w from to content) = true).
  { unfold listed, sent_message. cbn [m_to m_read].
    rewrite String.eqb_refl. now destruct unreadOnly as [[|]|]. }
  now rewrite L.
Qed.

(** X2: a message sent to one agent, not to ["all"], does not change what
    any other agent's listing returns. *)
Theorem send_message_not_seen_by_others e w from to content agent unreadOnly :
  agent <> to ->
  to <> "all" ->
  get_messages agent unreadOnly e (snd (send_message from to content e w))
  = (fst (get_messages agent unreadOnly e w),
     snd (send_message from to content e w)).
Proof.
  intros Ha Hall. rewrite send_message_run. cbn [snd].
  rewrite get_messages_after_append.
  assert (L : listed agent unreadOnly (sent_message e w from to content)
              = false).
  { unfold listed, sent_message. cbn [m_to m_read].
    apply not_eq_sym in Ha.
    apply String.eqb_neq in Ha, Hall. now rewrite Ha, Hall. }
  now rewrite L.
Qed.

(** X3: [announce_presence] appends one unread message from the agent to
    ["all"] whose body contains the agent's name and the status text; it
    shows up at the end of every agent's listing, and [workingOn] has no
    effect on the reply or on the world. *)
Theorem announce_presence_reaches_everyone
    e w agent status workingOn reader unreadOnly :
  let (r, w') := call_tool (AnnouncePresence agent status workingOn) e w in
  exists m,
    r = RSuccess
    /\ (r, w') = call_tool (AnnouncePresence agent status None) e w
    /\ messages w' = (messages w ++ [m])%list
    /\ m_from m = agent /\ m_to m = "all" /\ m_read m = false
    /\ contains agent (m_content m) /\ contains status (m_content m)
    /\ tasks w' = tasks w /\ shared_context w' = shared_context w
    /\ get_messages reader unreadOnly e w'
       = (RMessages
            (S (List.length (response_messages
                               (fst (get_messages reader unreadOnly e w)))))
            (response_messages (fst (get_messages reader unreadOnly e w))
             ++ [m]),
          w').
Proof.
  cbn [call_tool]. rewrite announce_presence_run.
  exists (presence_message e w agent status).
  repeat split.
  - unfold presence_message, online_content. cbn [m_content].
    do 2 apply contains_append_l. apply (contains_here EmptyString).
  - unfold presence_message, online_content. cbn [m_content].
    do 4 apply contains_append_l. apply contains_refl.
  - rewrite get_messages_after_append.
    assert (L : listed reader unreadOnly (presence_message e w agent status)
                = true).
    { unfold listed, presence_message. cbn [m_to m_read].
      rewrite orb_true_r. now destruct unreadOnly as [[|]|]. }
    now rewrite L.
Qed.

(* ================================================================= *)
(** ** What the stores keep *)

Lemma later_message_refl m : later_message m m.
Proof. now left. Qed.

Lemma later_message_trans m1 m2 m3 :
  later_message m1 m2 -> later_message m2 m3 -> later_message m1 m3.
Proof.
  intros [->| ->] [->| ->]; try (now left); now right.
Qed.

Lemma later_message_marked ids m : later_message m (marked_by ids m).
Proof.
  unfold marked_by. destruct (in_list (m_id m) ids); [now right|now left].
Qed.

Lemma nth_error_store_at {A} (pos : nat) (x : A) (l : list A) (i : nat) :
  nth_error (store_at pos x l) i =
  if Nat.eqb i pos
  then match nth_error l i with Some _ => Some x | None => None end
  else nth_error l i.
Proof.
  revert pos i. induction l as [|y l IH]; intros [|pos] [|i]; simpl;
    try reflexivity.
  - now destruct (Nat.eqb i pos).
  - apply IH.
Qed.

Lemma length_store_at {A} (pos : nat) (x : A) (l : list A) :
  List.length (store_at pos x l) = List.length l.
Proof.
  revert pos. induction l as [|y l IH]; intros [|pos]; simpl;
    try reflexivity.
  now rewrite IH.
Qed.

Lemma updated_task_identity e w status task :
  task_identity (updated_task e w status task) = task_identity task.
Proof. now destruct status. Qed.

(** One tool call keeps every stored message in its place, changed at
    most in its read flag, and every stored task in its place with its
    creation-time fields. *)
Lemma call_tool_keeps_messages e r w i m :
  nth_error (messages w) i = Some m ->
  exists m', nth_error (messages (snd (call_tool r e w))) i = Some m'
             /\ later_message m m'.
Proof.
  intro Hn.
  assert (Same : exists m', nth_error (messages w) i = Some m'
                            /\ later_message m m')
    by (exists m; split; [exact Hn|apply later_message_refl]).
  assert (App : forall x, exists m',
             nth_error (messages w ++ [x]) i = Some m' /\ later_message m m')
    by (intro x; exists m; split;
        [now apply nth_error_app_old|apply later_message_refl]).
  destruct r; cbn [call_tool].
  - rewrite send_message_run. apply App.
  - now rewrite get_messages_run.
  - rewrite mark_messages_read_run. cbn [snd set_messages messages].
    rewrite nth_error_map, Hn. cbn [option_map].
    eexists. split; [reflexivity|apply later_message_marked].
  - rewrite create_task_run. apply App.
  - exact Same.
  - destruct (next_task taskId (tasks w)) as [[pos task]|] eqn:E.
    + destruct (option_eq_dec_completed status) as [->|Hs].
      * rewrite (update_task_run_completed _ _ _ _ _ _ E). apply App.
      * now rewrite (update_task_run_other _ _ _ _ _ _ _ E Hs).
    + now rewrite update_task_run_absent.
  - now rewrite update_context_run.
  - exact Same.
  - rewrite announce_presence_run. apply App.
  - exact Same.
Qed.

Lemma call_tool_keeps_tasks e r w i t :
  nth_error (tasks w) i = Some t ->
  exists t', nth_error (tasks (snd (call_tool r e w))) i = Some t'
             /\ task_identity t' = task_identity t.
Proof.
  intro Hn.
  assert (Same : exists t', nth_error (tasks w) i = Some t'
                            /\ task_identity t' = task_identity t)
    by (now exists t).
  assert (Upd : forall pos task status,
             nth_error (tasks w) pos = Some task ->
             exists t',
               nth_error (store_at pos (updated_task e w status task) (tasks w))
                         i = Some t'
               /\ task_identity t' = task_identity t).
  { intros pos task status Hp. rewrite nth_error_store_at.
    destruct (Nat.eqb_spec i pos) as [->|_]; [|exact Same].
    rewrite Hn. eexists. split; [reflexivity|].
    rewrite updated_task_identity. congruence. }
  destruct r; cbn [call_tool].
  - now rewrite send_message_run.
  - now rewrite get_messages_run.
  - now rewrite mark_messages_read_run.
  - rewrite create_task_run. exists t. split; [|reflexivity].
    now apply nth_error_app_old.
  - exact Same.
  - destruct (next_task taskId (tasks w)) as [[pos task]|] eqn:E.
    + destruct (next_task_found _ _ _ _ E) as (Hp & _ & _).
      destruct (option_eq_dec_completed status) as [->|Hs].
      * rewrite (update_task_run_completed _ _ _ _ _ _ E).
        now apply Upd.
      * rewrite (update_task_run_other _ _ _ _ _ _ _ E Hs).
        now apply Upd.
    + now rewrite update_task_run_absent.
  - now rewrite update_context_run.
  - exact Same.
  - now rewrite announce_presence_run.
  - exact Same.
Qed.

(** X4: across any sequence of tool calls a stored message keeps its
    position and is never removed or rewritten: later it is the same
    message, or the same message with its read flag set. *)
Theorem messages_are_kept e rs w i m :
  nth_error (messages w) i = Some m ->
  exists m',
    nth_error (messages (run e rs w)) i = Some m'
    /\ later_message m m'
    /\ m_id m' = m_id m /\ m_from m' = m_from m /\ m_to m' = m_to m
    /\ m_content m' = m_content m /\ m_timestamp m' = m_timestamp m.
Proof.
  intro Hn.
  assert (H : exists m', nth_error (messages (run e rs w)) i = Some m'
                         /\ later_message m m').
  { revert w m Hn. induction rs as [|r rs IH]; intros w m Hn; simpl.
    - exists m. split; [exact Hn|apply later_message_refl].
    - destruct (call_tool_keeps_messages e r w i m Hn) as (m1 & H1 & L1).
      destruct (IH _ _ H1) as (m2 & H2 & L2).
      exists m2. split; [exact H2|]. now apply later_message_trans with m1. }
  destruct H as (m' & Hn' & L). exists m'.
  split; [exact Hn'|split; [exact L|]].
  destruct L as [->| ->]; repeat split.
Qed.

(** X5: across any sequence of tool calls a stored task keeps its
    position and is never removed, and its id, title, description,
    assignee, creator, priority, creation time and context payload stay
    what they were; only [status] and [updatedAt] are ever written. *)
Theorem tasks_are_kept e rs w i t :
  nth_error (tasks w) i = Some t ->
  exists t',
    nth_error (tasks (run e rs w)) i = Some t'
    /\ t_id t' = t_id t /\ t_title t' = t_title t
    /\ t_description t' = t_description t
    /\ t_assignedTo t' = t_assignedTo t /\ t_createdBy t' = t_createdBy t
    /\ t_priority t' = t_priority t /\ t_createdAt t' = t_createdAt t
    /\ t_context t' = t_context t.
Proof.
  intro Hn.
  assert (H : exists t', nth_error (tasks (run e rs w)) i = Some t'
                         /\ task_identity t' = task_identity t).
  { revert w t Hn. induction rs as [|r rs IH]; intros w t Hn; simpl.
    - now exists t.
    - destruct (call_tool_keeps_tasks e r w i t Hn) as (t1 & H1 & I1).
      destruct (IH _ _ H1) as (t2 & H2 & I2).
      exists t2. split; [exact H2|]. congruence. }
  destruct H as (t' & Hn' & I). exists t'.
  split; [exact Hn'|]. unfold task_identity in I.
  injection I as -> -> -> -> -> -> -> ->. repeat split.
Qed.

(* ================================================================= *)
(** ** Marking and listing together *)

Lemma listed_marked agent unreadOnly ids m :
  listed agent unreadOnly (marked_by ids m) =
  match unreadOnly with
  | Some true => listed agent unreadOnly m && negb (in_list (m_id m) ids)
  | _ => listed agent unreadOnly m
  end.
Proof.
  unfold marked_by, listed.
  destruct (in_list (m_id m) ids); cbn [mark_read m_to m_read negb].
  - destruct unreadOnly as [[|]|]; try reflexivity.
    now rewrite !andb_false_r.
  - destruct unreadOnly as [[|]|]; try reflexivity.
    now rewrite andb_true_r.
Qed.

Lemma unread_listing_marked agent ids l :
  List.filter (listed agent (Some true)) (map (marked_by ids) l)
  = List.filter (fun m => listed agent (Some true) m
                          && negb (in_list (m_id m) ids)) l.
Proof.
  induction l as [|m l IH]; simpl; [reflexivity|].
  rewrite listed_marked.
  destruct (listed agent (Some true) m); cbn [andb]; [|exact IH].
  unfold marked_by at 1.
  destruct (in_list (m_id m) ids); cbn [negb]; [exact IH|].
  now rewrite IH.
Qed.

Lemma full_listing_marked agent unreadOnly ids l :
  unreadOnly <> Some true ->
  map m_id (List.filter (listed agent unreadOnly) (map (marked_by ids) l))
  = map m_id (List.filter (listed agent unreadOnly) l).
Proof.
  intro H. induction l as [|m l IH]; simpl; [reflexivity|].
  rewrite listed_marked.
  assert (E : match unreadOnly with
              | Some true => listed agent unreadOnly m
                             && negb (in_list (m_id m) ids)
              | _ => listed agent unreadOnly m
              end = listed agent unreadOnly m)
    by (destruct unreadOnly as [[|]|]; [now destruct H| |]; reflexivity).
  rewrite E.
  destruct (listed agent unreadOnly m); simpl; [rewrite marked_by_id|];
    now rewrite IH.
Qed.

(** X6: after [mark_messages_read(ids)] an agent's unread listing is its
    unread listing from before without the messages whose id is among
    [ids], each remaining message unchanged; its full listing has the same
    ids in the same order as before. *)
Theorem marked_messages_leave_unread_listing ids agent e w :
  let w' := snd (mark_messages_read ids e w) in
  response_messages (fst (get_messages agent (Some true) e w'))
  = List.filter (fun m => negb (in_list (m_id m) ids))
                (response_messages (fst (get_messages agent (Some true) e w)))
  /\ map m_id (response_messages (fst (get_messages agent (Some false) e w')))
     = map m_id (response_messages (fst (get_messages agent (Some false) e w)))
  /\ map m_id (response_messages (fst (get_messages agent None e w')))
     = map m_id (response_messages (fst (get_messages agent None e w))).
Proof.
  cbn zeta. rewrite mark_messages_read_run, !get_messages_run.
  cbn [snd fst response_messages set_messages messages].
  rewrite filter_filter.
  split; [apply unread_listing_marked|].
  split; apply full_listing_marked; discriminate.
Qed.

(** X7: when no stored message has one of the given ids (in particular for
    an empty list of ids, or an empty store) [mark_messages_read] reports
    zero and leaves the world exactly as it was. *)
Theorem mark_messages_read_unknown_ids ids e w :
  (forall m, In m (messages w) -> in_list (m_id m) ids = false) ->
  mark_messages_read ids e w = (RMarkedRead 0, w).
Proof.
  intro H. rewrite mark_messages_read_run.
  assert (E : map (marked_by ids) (messages w) = messages w
              /\ matched ids (messages w) = 0).
  { unfold matched. revert H. induction (messages w) as [|m l IH]; intro H.
    - now split.
    - simpl. unfold marked_by at 1.
      rewrite (H m (or_introl eq_refl)).
      destruct IH as [IH1 IH2]; [intros x Hx; apply H; now right|].
      now rewrite IH1, IH2. }
  destruct E as [-> ->]. now destruct w.
Qed.

(* ================================================================= *)
(** ** Updating tasks *)

Lemma next_task_store_at task_id ts pos task task' :
  next_task task_id ts = Some (pos, task) ->
  t_id task' = task_id ->
  next_task task_id (store_at pos task' ts) = Some (pos, task').
Proof.
  revert pos. induction ts as [|t ts IH]; intros pos; simpl; [discriminate|].
  destruct (String.eqb_spec (t_id t) task_id) as [E|E].
  - intros [= <- <-] E'. simpl. rewrite E'. now rewrite String.eqb_refl.
  - destruct (next_task task_id ts) as [[i t']|]; [|discriminate].
    intros [= <- <-] E'. simpl.
    apply String.eqb_neq in E. rewrite E.
    now rewrite (IH i eq_refl E').
Qed.

(** X8: on an existing task [update_task] writes to one task only, the
    first one in the store that has the id: the store keeps its length,
    every other position (also a later task with the same id) keeps its
    task, and the updated task differs from the old one at most in
    [status] and in [updatedAt], which becomes the clock reading of the
    call; the shared context is not touched. *)
Theorem update_task_writes_first_match e w task_id status notes pos task :
  next_task task_id (tasks w) = Some (pos, task) ->
  let w' := snd (update_task task_id status notes e w) in
  List.length (tasks w') = List.length (tasks w)
  /\ (forall j, j <> pos -> nth_error (tasks w') j = nth_error (tasks w) j)
  /\ (forall j t, j < pos -> nth_error (tasks w) j = Some t ->
                  t_id t <> task_id)
  /\ (exists task',
        nth_error (tasks w') pos = Some task'
        /\ task_identity task' = task_identity task
        /\ t_status task' = get_default status (t_status task)
        /\ t_updatedAt task' = clock e (ticks w))
  /\ shared_context w' = shared_context w.
Proof.
  intro H. cbn zeta.
  destruct (next_task_found _ _ _ _ H) as (Hn & _ & Hfirst).
  assert (G : forall msgs tk dr,
    let w' := mkWorld msgs (store_at pos (updated_task e w status task)
                                     (tasks w))
                      (shared_context w) tk dr in
    List.length (tasks w') = List.length (tasks w)
    /\ (forall j, j <> pos -> nth_error (tasks w') j = nth_error (tasks w) j)
    /\ (forall j t, j < pos -> nth_error (tasks w) j = Some t ->
                    t_id t <> task_id)
    /\ (exists task',
          nth_error (tasks w') pos = Some task'
          /\ task_identity task' = task_identity task
          /\ t_status task' = get_default status (t_status task)
          /\ t_updatedAt task' = clock e (ticks w))
    /\ shared_context w' = shared_context w).
  { intros msgs tk dr. cbn [tasks shared_context].
    split; [apply length_store_at|].
    split.
    { intros j Hj. rewrite nth_error_store_at.
      destruct (Nat.eqb_spec j pos); [contradiction|reflexivity]. }
    split; [exact Hfirst|].
    split; [|reflexivity].
    exists (updated_task e w status task).
    rewrite nth_error_store_at, Nat.eqb_refl, Hn.
    repeat split; [apply updated_task_identity|now destruct status]. }
  destruct (option_eq_dec_completed status) as [->|Hs].
  - rewrite (update_task_run_completed _ notes e _ _ _ H). apply G.
  - rewrite (update_task_run_other _ _ notes e _ _ _ H Hs). apply G.
Qed.

(** X9: completing a task twice notifies twice: two successive
    [update_task(id, "completed", notes)] calls on an existing task append
    two messages with the same sender, recipient and body. *)
Theorem update_task_completed_twice e w task_id notes pos task :
  next_task task_id (tasks w) = Some (pos, task) ->
  let w1 := snd (update_task task_id (Some "completed") notes e w) in
  let w2 := snd (update_task task_id (Some "completed") notes e w1) in
  exists m1 m2,
    messages w2 = (messages w ++ [m1; m2])%list
    /\ m_from m1 = t_assignedTo task /\ m_from m2 = t_assignedTo task
    /\ m_to m1 = t_createdBy task /\ m_to m2 = t_createdBy task
    /\ m_content m2 = m_content m1
    /\ m_read m1 = false /\ m_read m2 = false.
Proof.
  intro H. cbn zeta.
  rewrite (update_task_run_completed _ notes e _ _ _ H). cbn [snd].
  set (task1 := updated_task e w (Some "completed") task).
  set (w1 := mkWorld _ _ _ _ _).
  assert (H1 : next_task task_id (tasks w1) = Some (pos, task1)).
  { unfold w1. cbn [tasks].
    apply (next_task_store_at _ _ _ task); [exact H|].
    destruct (next_task_found _ _ _ _ H) as (_ & E & _). exact E. }
  rewrite (update_task_run_completed _ notes e _ _ _ H1). cbn [snd messages].
  unfold w1 at 1. cbn [messages]. rewrite <- app_assoc. cbn [app].
  do 2 eexists. split; [reflexivity|].
  repeat split.
Qed.

(** X12: after a successful [update_task(id, status = s)] the updated task
    is among the tasks that [get_tasks] returns for its assignee under the
    status filter [s], and for its creator under [filter = "created"]. *)
Theorem updated_task_is_listed e w task_id s notes pos task :
  next_task task_id (tasks w) = Some (pos, task) ->
  let (r, w') := update_task task_id (Some s) notes e w in
  exists task',
    r = RTaskUpdated task'
    /\ t_status task' = s
    /\ In task' (response_tasks
                   (fst (get_tasks (t_assignedTo task) (Some "assigned")
                                   (Some s) e w')))
    /\ In task' (response_tasks
                   (fst (get_tasks (t_createdBy task) (Some "created")
                                   (Some s) e w'))).
Proof.
  intro H.
  destruct (next_task_found _ _ _ _ H) as (Hn & _ & _).
  assert (G : forall msgs tk dr,
    let task' := updated_task e w (Some s) task in
    let w' := mkWorld msgs (store_at pos task' (tasks w))
                      (shared_context w) tk dr in
    t_status task' = s
    /\ In task' (response_tasks
                   (fst (get_tasks (t_assignedTo task) (Some "assigned")
                                   (Some s) e w')))
    /\ In task' (response_tasks
                   (fst (get_tasks (t_createdBy task) (Some "created")
                                   (Some s) e w')))).
  { intros msgs tk dr. cbn zeta. split; [reflexivity|].
    rewrite !get_tasks_run. cbn [fst response_tasks tasks].
    assert (I : In (updated_task e w (Some s) task)
                   (store_at pos (updated_task e w (Some s) task) (tasks w))).
    { apply nth_error_In with pos.
      now rewrite nth_error_store_at, Nat.eqb_refl, Hn. }
    split; apply filter_In; (split; [exact I|]);
      unfold role_test, status_selects;
      cbn [get_default String.eqb Ascii.eqb Bool.eqb updated_task
           set_updatedAt set_status t_assignedTo t_createdBy t_status];
      rewrite !String.eqb_refl; now destruct (s =? "all"). }
  destruct (String.string_dec s "completed") as [->|Hs].
  - rewrite (update_task_run_completed _ notes e _ _ _ H).
    eexists. split; [reflexivity|]. apply G.
  - assert (Hs' : Some s <> Some "completed") by congruence.
    rewrite (update_task_run_other _ _ notes e _ _ _ H Hs').
    eexists. split; [reflexivity|]. apply G.
Qed.

(* ================================================================= *)
(** ** Creating and listing tasks *)

(** X11: right after [create_task] the new task is the last entry of the
    assignee's pending assigned tasks and of the creator's created tasks:
    both listings are what they were before the call followed by the new
    task. *)
Theorem created_task_is_listed
    e w title description assignedTo createdBy priority context :
  let (r, w') :=
    create_task title description assignedTo createdBy priority context e w in
  exists task,
    r = RTaskCreated (t_id task)
    /\ response_tasks
         (fst (get_tasks assignedTo (Some "assigned") (Some "pending") e w'))
       = (response_tasks
            (fst (get_tasks assignedTo (Some "assigned") (Some "pending") e w))
          ++ [task])%list
    /\ response_tasks (fst (get_tasks assignedTo None None e w'))
       = (response_tasks (fst (get_tasks assignedTo None None e w))
          ++ [task])%list
    /\ response_tasks (fst (get_tasks createdBy (Some "created") None e w'))
       = (response_tasks (fst (get_tasks createdBy (Some "created") None e w))
          ++ [task])%list.
Proof.
  rewrite create_task_run.
  exists (created_task e w title description assignedTo createdBy priority
                       context).
  split; [reflexivity|].
  rewrite !get_tasks_run. cbn [fst response_tasks tasks].
  rewrite !filter_snoc.
  unfold role_test, status_selects.
  cbn [get_default String.eqb Ascii.eqb Bool.eqb created_task
       t_assignedTo t_createdBy t_status].
  rewrite !String.eqb_refl. cbn [andb].
  repeat split.
Qed.

(* ================================================================= *)
(** ** Shared context: composition *)

(** X10: of two [update_context] calls in a row each field ends up with
    the value of the later call that supplied it, with its old value when
    neither did; [get_context] then returns exactly the stored context and
    changes nothing. *)
Theorem update_context_last_write_wins e w b1 f1 c1 n1 b2 f2 c2 n2 :
  let w2 := run e [UpdateContext b1 f1 c1 n1; UpdateContext b2 f2 c2 n2] w in
  let old := shared_context w in
  let new := shared_context w2 in
  currentBranch new = get_default b2 (get_default b1 (currentBranch old))
  /\ activeFiles new = get_default f2 (get_default f1 (activeFiles old))
  /\ recentChanges new = get_default c2 (get_default c1 (recentChanges old))
  /\ notes new = get_default n2 (get_default n1 (notes old))
  /\ lastUpdated new = clock e (1 + ticks w)
  /\ fst (call_tool (UpdateContext b2 f2 c2 n2) e
                    (snd (call_tool (UpdateContext b1 f1 c1 n1) e w)))
     = RContextUpdated new
  /\ call_tool GetContext e w2 = (RContext new, w2).
Proof.
  cbn [run call_tool]. rewrite !update_context_run. cbn [snd fst].
  repeat split.
Qed.

(* ================================================================= *)
(** ** The dispatcher and the catalogues *)

Lemma call_tool_named_unlisted name a e w :
  ~ In name (map tool_name list_tools) ->
  call_tool_named name a e w
  = (Returned (RError ("Unknown tool: " ++ name)), w).
Proof.
  intro H. unfold call_tool_named.
  repeat (match goal with
          | |- context [String.eqb name ?lit] =>
              destruct (String.eqb_spec name lit) as [->|_];
              [exfalso; apply H; cbn [map list_tools tool_name In]; tauto|]
          end).
  reflexivity.
Qed.

Ltac reduce_keys :=
  lazy [first_missing required tool_name properties has_key is_some
        String.eqb Ascii.eqb Bool.eqb
        arg_from arg_to arg_content arg_agent arg_unreadOnly arg_messageIds
        arg_title arg_description arg_assignedTo arg_createdBy arg_priority
        arg_context arg_filter arg_status arg_taskId arg_notes
        arg_currentBranch arg_activeFiles arg_recentChanges arg_workingOn].

Ltac run_dispatch :=
  unfold call_tool_named;
  lazy beta iota delta
       [String.eqb Ascii.eqb Bool.eqb bindx subscript lift retx
        arg_from arg_to arg_content arg_agent arg_unreadOnly arg_messageIds
        arg_title arg_description arg_assignedTo arg_createdBy arg_priority
        arg_context arg_filter arg_status arg_taskId arg_notes
        arg_currentBranch arg_activeFiles arg_recentChanges arg_workingOn].

(** X13: for every tool that [list_tools] advertises, [call_tool] raises
    [KeyError] exactly when the arguments lack a key the tool's schema
    lists as required; the error names the first such key in the schema's
    order, and messages, tasks and shared context are then exactly as they
    were before the call. *)
Theorem key_error_iff_required_key_missing t a e w :
  In t list_tools ->
  match first_missing (required t) a with
  | Some key =>
      fst (call_tool_named (tool_name t) a e w) = KeyError key
      /\ stores (snd (call_tool_named (tool_name t) a e w)) = stores w
  | None =>
      exists r, fst (call_tool_named (tool_name t) a e w) = Returned r
  end.
Proof.
  intro H. cbn [list_tools In] in H.
  destruct a as [afrom ato acontent aagent aunread aids atitle adescr
                 aassigned acreated aprio actx afilter astatus ataskid
                 anotes abranch afiles achanges aworking].
  repeat (destruct H as [<-|H]); [..|destruct H].
  - destruct afrom, ato, acontent; reduce_keys;
      first [split; reflexivity | eexists; reflexivity].
  - destruct aagent; reduce_keys;
      first [split; reflexivity | eexists; reflexivity].
  - destruct aids; reduce_keys; [|split; reflexivity].
    run_dispatch. rewrite mark_messages_read_run. eexists; reflexivity.
  - destruct atitle, adescr, aassigned, acreated; reduce_keys;
      first [split; reflexivity | eexists; reflexivity].
  - destruct aagent; reduce_keys;
      first [split; reflexivity | eexists; reflexivity].
  - destruct ataskid; reduce_keys; [|split; reflexivity].
    run_dispatch.
    destruct (update_task s astatus anotes e w). eexists; reflexivity.
  - reduce_keys. run_dispatch. rewrite update_context_run.
    eexists; reflexivity.
  - reduce_keys. eexists; reflexivity.
  - destruct aagent, astatus; reduce_keys;
      first [split; reflexivity | eexists; reflexivity].
Qed.

(** X14: on the arguments dict that holds a request's values, [call_tool]
    raises nothing and replies and acts as the tool does on those values;
    reading the keys after [generate_id], as three of the branches do, makes
    no difference then. *)
Theorem call_tool_named_runs_the_tool r e w :
  match r with
  | UnknownTool name => ~ In name (map tool_name list_tools)
  | _ => True
  end ->
  call_tool_named (request_name r) (request_arguments r) e w
  = (Returned (fst (call_tool r e w)), snd (call_tool r e w)).
Proof.
  intro H.
  destruct r as [from to content|agent u|ids|title d asg cr pr ctx|agent f st
                |task_id st nt|b f c n| |agent st wk|name];
    cbn [request_name request_arguments call_tool].
  - reflexivity.
  - reflexivity.
  - run_dispatch. now rewrite mark_messages_read_run.
  - reflexivity.
  - reflexivity.
  - run_dispatch. now destruct (update_task task_id st nt e w).
  - run_dispatch. now rewrite update_context_run.
  - reflexivity.
  - reflexivity.
  - now rewrite call_tool_named_unlisted.
Qed.

(** X15: a name that [list_tools] does not advertise gets the reply
    [Unknown tool: name], whatever the arguments, and the world stays as it
    was; a name that [list_tools] advertises never gets that reply. *)
Theorem unknown_tool_iff_unlisted name a e w :
  (~ In name (map tool_name list_tools) ->
   call_tool_named name a e w
   = (Returned (RError ("Unknown tool: " ++ name)), w))
  /\ (In name (map tool_name list_tools) ->
      fst (call_tool_named name a e w)
      <> Returned (RError ("Unknown tool: " ++ name))).
Proof.
  split; [apply call_tool_named_unlisted|].
  intro H. cbn [map list_tools tool_name In] in H.
  destruct a as [afrom ato acontent aagent aunread aids atitle adescr
                 aassigned acreated aprio actx afilter astatus ataskid
                 anotes abranch afiles achanges aworking].
  repeat (destruct H as [<-|H]); [..|destruct H].
  - destruct afrom, ato, acontent; discriminate.
  - destruct aagent; discriminate.
  - destruct aids; [|discriminate].
    run_dispatch. rewrite mark_messages_read_run. discriminate.
  - destruct atitle, adescr, aassigned, acreated; discriminate.
  - destruct aagent; discriminate.
  - destruct ataskid as [task_id|]; [|discriminate].
    run_dispatch.
    destruct (next_task task_id (tasks w)) as [[pos task]|] eqn:E.
    + destruct (option_eq_dec_completed astatus) as [->|Hs].
      * rewrite (update_task_run_completed _ anotes e _ _ _ E). discriminate.
      * rewrite (update_task_run_other _ _ anotes e _ _ _ E Hs). discriminate.
    + rewrite update_task_run_absent by exact E. discriminate.
  - run_dispatch. rewrite update_context_run. discriminate.
  - discriminate.
  - destruct aagent, astatus; discriminate.
Qed.


(* ================================================================= *)
(** ** Using the ids the tools return *)

Lemma next_task_snoc task_id ts t :
  t_id t = task_id ->
  next_task task_id (ts ++ [t]) =
  match next_task task_id ts with
  | Some found => Some found
  | None => Some (List.length ts, t)
  end.
Proof.
  intro E. induction ts as [|x ts IH]; simpl.
  - rewrite E, String.eqb_refl. reflexivity.
  - destruct (t_id x =? task_id); [reflexivity|].
    rewrite IH. now destruct (next_task task_id ts) as [[i t']|].
Qed.

(** X17: the id that [create_task] returns can be used at once:
    [update_task] with it never answers not-found, and when no earlier task
    carries the same id it is the new task, the last one in the store, that
    gets updated. *)
Theorem created_task_can_be_updated
    e w title description assignedTo createdBy priority context status notes :
  let (r, w') :=
    create_task title description assignedTo createdBy priority context e w in
  exists task_id,
    r = RTaskCreated task_id
    /\ (exists updated,
          fst (update_task task_id status notes e w') = RTaskUpdated updated
          /\ t_id updated = task_id)
    /\ ((forall t, In t (tasks w) -> t_id t <> task_id) ->
        exists updated,
          fst (update_task task_id status notes e w') = RTaskUpdated updated
          /\ t_title updated = title
          /\ t_assignedTo updated = assignedTo
          /\ t_createdBy updated = createdBy
          /\ nth_error (tasks (snd (update_task task_id status notes e w')))
                       (List.length (tasks w))
             = Some updated).
Proof.
  rewrite create_task_run.
  set (task := created_task e w title description assignedTo createdBy
                            priority context).
  set (w' := mkWorld _ _ _ _ _).
  exists (t_id task). split; [reflexivity|].
  assert (S : forall pos found,
             next_task (t_id task) (tasks w') = Some (pos, found) ->
             fst (update_task (t_id task) status notes e w')
             = RTaskUpdated (updated_task e w' status found)
             /\ nth_error (tasks (snd (update_task (t_id task) status notes
                                                   e w'))) pos
                = Some (updated_task e w' status found)).
  { intros pos found E.
    destruct (next_task_found _ _ _ _ E) as (Hn & _ & _).
    destruct (option_eq_dec_completed status) as [->|Hs].
    - rewrite (update_task_run_completed _ notes e _ _ _ E).
      cbn [fst snd tasks]. split; [reflexivity|].
      now rewrite nth_error_store_at, Nat.eqb_refl, Hn.
    - rewrite (update_task_run_other _ _ notes e _ _ _ E Hs).
      cbn [fst snd tasks]. split; [reflexivity|].
      now rewrite nth_error_store_at, Nat.eqb_refl, Hn. }
  assert (N : next_task (t_id task) (tasks w') =
              match next_task (t_id task) (tasks w) with
              | Some found => Some found
              | None => Some (List.length (tasks w), task)
              end)
    by (unfold w'; cbn [tasks]; now apply next_task_snoc).
  split.
  - destruct (next_task (t_id task) (tasks w)) as [[pos found]|] eqn:E.
    + destruct (S _ _ N) as [R _]. eexists. split; [exact R|].
      destruct (next_task_found _ _ _ _ N) as (_ & I & _).
      now destruct status.
    + destruct (S _ _ N) as [R _]. eexists. split; [exact R|].
      now destruct status.
  - intro Fresh. rewrite (next_task_absent _ _ Fresh) in N.
    destruct (S _ _ N) as [R P]. eexists.
    split; [exact R|]. repeat split; try (now destruct status).
Qed.

(** X18: the id that [send_message] returns can be used at once:
    [mark_messages_read] with it reports at least one message, the new
    message is read afterwards, and it is gone from the recipient's unread
    listing. *)
Theorem sent_message_can_be_marked e w from to content :
  let (r, w1) := send_message from to content e w in
  exists message_id,
    r = RMessageSent message_id
    /\ fst (mark_messages_read [message_id] e w1)
       = RMarkedRead (S (matched [message_id] (messages w)))
    /\ (exists m,
          nth_error (messages (snd (mark_messages_read [message_id] e w1)))
                    (List.length (messages w)) = Some m
          /\ m_id m = message_id /\ m_read m = true
          /\ m_from m = from /\ m_to m = to /\ m_content m = content)
    /\ (forall m,
          In m (response_messages
                  (fst (get_messages to (Some true) e
                          (snd (mark_messages_read [message_id] e w1))))) ->
          m_id m <> message_id).
Proof.
  rewrite send_message_run.
  set (m0 := sent_message e w from to content).
  set (w1 := mkWorld _ _ _ _ _).
  exists (m_id m0). split; [reflexivity|].
  rewrite mark_messages_read_run. cbn [fst snd].
  assert (I : in_list (m_id m0) [m_id m0] = true)
    by (unfold in_list; cbn [existsb]; now rewrite String.eqb_refl).
  split; [|split].
  - unfold w1. cbn [messages]. unfold matched.
    rewrite filter_snoc, I, length_snoc. reflexivity.
  - exists (mark_read m0). unfold w1. cbn [set_messages messages].
    rewrite map_app. cbn [map]. unfold marked_by at 2. rewrite I.
    rewrite nth_error_app2 by (rewrite length_map; lia).
    rewrite length_map, Nat.sub_diag. repeat split.
  - intros m Hm. rewrite get_messages_run in Hm.
    cbn [fst response_messages set_messages messages] in Hm.
    rewrite unread_listing_marked in Hm.
    apply filter_In in Hm. destruct Hm as [_ Hm].
    apply andb_true_iff in Hm. destruct Hm as [_ Hm].
    intro E. rewrite E, I in Hm. discriminate.
Qed.

(* ================================================================= *)
(** ** The shape of an identifier *)





(* ================================================================= *)
(** ** The further theorems at concrete inputs *)

Lemma send_message_not_seen_by_others_witness :
  let e := ticking_env in
  let w := run e [SendMessage "codex" "cascade" "earlier"] (initial_world e) in
  "cascade" <> "codex" /\ "codex" <> "all"
  /\ get_messages "cascade" None e
                  (snd (send_message "cascade" "codex" "hello" e w))
     = (fst (get_messages "cascade" None e w),
        snd (send_message "cascade" "codex" "hello" e w)).
Proof.
  intros e w.
  assert (Ha : "cascade" <> "codex") by discriminate.
  assert (Hall : "codex" <> "all") by discriminate.
  split; [exact Ha|split; [exact Hall|]].
  exact (send_message_not_seen_by_others e w "cascade" "codex" "hello"
                                         "cascade" None Ha Hall).
Defined.

Lemma messages_are_kept_witness :
  let e := ticking_env in
  let w := run e [SendMessage "cascade" "codex" "hello"] (initial_world e) in
  let m := sent_message e (initial_world e) "cascade" "codex" "hello" in
  let rs := [MarkMessagesRead [m_id m];
             CreateTask "Review PR" "look at it" "codex" "cascade" None None;
             AnnouncePresence "codex" "ready" None] in
  nth_error (messages w) 0 = Some m
  /\ exists m',
       nth_error (messages (run e rs w)) 0 = Some m'
       /\ m_content m' = "hello" /\ m_to m' = "codex".
Proof.
  intros e w m rs.
  assert (H : nth_error (messages w) 0 = Some m) by reflexivity.
  split; [exact H|].
  destruct (messages_are_kept e rs w 0 m H)
    as (m' & Hn & _ & _ & _ & Hto & Hc & _).
  exists m'. split; [exact Hn|]. split; [exact Hc|exact Hto].
Defined.

Lemma tasks_are_kept_witness :
  let e := ticking_env in
  let w :=
    run e [CreateTask "Review PR" "look at it" "codex" "cascade" None None]
        (initial_world e) in
  let t := created_task e (initial_world e) "Review PR" "look at it" "codex"
                        "cascade" None None in
  let rs := [UpdateTask (t_id t) (Some "completed") (Some "done");
             UpdateTask (t_id t) (Some "blocked") None] in
  nth_error (tasks w) 0 = Some t
  /\ exists t',
       nth_error (tasks (run e rs w)) 0 = Some t'
       /\ t_title t' = "Review PR" /\ t_createdBy t' = "cascade".
Proof.
  intros e w t rs.
  assert (H : nth_error (tasks w) 0 = Some t) by reflexivity.
  split; [exact H|].
  destruct (tasks_are_kept e rs w 0 t H)
    as (t' & Hn & _ & Ht & _ & _ & Hc & _).
  exists t'. split; [exact Hn|]. split; [exact Ht|exact Hc].
Defined.

Lemma mark_messages_read_unknown_ids_witness :
  let e := ticking_env in
  let w := run e [SendMessage "cascade" "codex" "hello"] (initial_world e) in
  (forall m, In m (messages w) -> in_list (m_id m) ["no-such-id"] = false)
  /\ mark_messages_read ["no-such-id"] e w = (RMarkedRead 0, w).
Proof.
  intros e w.
  assert (H : forall m, In m (messages w) ->
                        in_list (m_id m) ["no-such-id"] = false).
  { intros m [<-|[]]. vm_compute. reflexivity. }
  split; [exact H|].
  exact (mark_messages_read_unknown_ids ["no-such-id"] e w H).
Defined.

Lemma update_task_writes_first_match_witness :
  let e := frozen_env in
  let w :=
    run e [CreateTask "Review PR" "first" "codex" "cascade" None None;
           CreateTask "Write docs" "second" "cascade" "codex" None None]
        (initial_world e) in
  let task := created_task e (initial_world e) "Review PR" "first" "codex"
                           "cascade" None None in
  let w' := snd (update_task (t_id task) (Some "in_progress") None e w) in
  next_task (t_id task) (tasks w) = Some (0, task)
  /\ map t_id (tasks w) = [t_id task; t_id task]
  /\ nth_error (tasks w') 1 = nth_error (tasks w) 1
  /\ List.length (tasks w') = 2.
Proof.
  intros e w task w'.
  assert (H : next_task (t_id task) (tasks w) = Some (0, task))
    by (vm_compute; reflexivity).
  split; [exact H|]. split; [vm_compute; reflexivity|].
  destruct (update_task_writes_first_match e w (t_id task)
              (Some "in_progress") None 0 task H) as (L & F & _).
  split; [apply F; discriminate|exact L].
Defined.

Lemma update_task_completed_twice_witness :
  let e := ticking_env in
  let w :=
    run e [CreateTask "Review PR" "look at it" "codex" "cascade" None None]
        (initial_world e) in
  let task := created_task e (initial_world e) "Review PR" "look at it"
                           "codex" "cascade" None None in
  let w1 := snd (update_task (t_id task) (Some "completed") (Some "done")
                             e w) in
  let w2 := snd (update_task (t_id task) (Some "completed") (Some "done")
                             e w1) in
  next_task (t_id task) (tasks w) = Some (0, task)
  /\ exists m1 m2,
       messages w2 = (messages w ++ [m1; m2])%list
       /\ m_content m2 = m_content m1.
Proof.
  intros e w task w1 w2.
  assert (H : next_task (t_id task) (tasks w) = Some (0, task))
    by (vm_compute; reflexivity).
  split; [exact H|].
  destruct (update_task_completed_twice e w (t_id task) (Some "done") 0 task H)
    as (m1 & m2 & Hm & _ & _ & _ & _ & Hc & _).
  exists m1, m2. split; [exact Hm|exact Hc].
Defined.

Lemma updated_task_is_listed_witness :
  let e := ticking_env in
  let w :=
    run e [CreateTask "Review PR" "look at it" "codex" "cascade" None None]
        (initial_world e) in
  let task := created_task e (initial_world e) "Review PR" "look at it"
                           "codex" "cascade" None None in
  next_task (t_id task) (tasks w) = Some (0, task)
  /\ exists task',
       fst (update_task (t_id task) (Some "blocked") None e w)
       = RTaskUpdated task'
       /\ In task'
             (response_tasks
                (fst (get_tasks "codex" (Some "assigned") (Some "blocked") e
                        (snd (update_task (t_id task) (Some "blocked") None
                                          e w))))).
Proof.
  intros e w task.
  assert (H : next_task (t_id task) (tasks w) = Some (0, task))
    by (vm_compute; reflexivity).
  split; [exact H|].
  pose proof (updated_task_is_listed e w (t_id task) "blocked" None 0 task H)
    as T.
  destruct (update_task (t_id task) (Some "blocked") None e w) as [r w'].
  destruct T as (task' & R & _ & I & _).
  exists task'. split; [exact R|exact I].
Defined.

Lemma key_error_witness :
  let e := ticking_env in
  let w := initial_world e in
  let t := mkTool "send_message"
                  [prop "from" TString; prop "to" TString;
                   prop "content" TString]
                  ["from"; "to"; "content"] in
  let a :=
    mkArguments (Some "cascade") None (Some "hello") None None None None None
                None None None None None None None None None None None None in
  In t list_tools
  /\ fst (call_tool_named "send_message" a e w) = KeyError "to"
  /\ stores (snd (call_tool_named "send_message" a e w)) = stores w.
Proof.
  intros e w t a.
  assert (H : In t list_tools) by (left; reflexivity).
  split; [exact H|].
  exact (key_error_iff_required_key_missing t a e w H).
Defined.

Lemma call_tool_named_runs_the_tool_witness :
  let e := ticking_env in
  let w := initial_world e in
  call_tool_named "create_task"
    (request_arguments
       (CreateTask "Review PR" "look at it" "codex" "cascade" (Some "high")
                   None)) e w
  = (Returned
       (fst (create_task "Review PR" "look at it" "codex" "cascade"
                         (Some "high") None e w)),
     snd (create_task "Review PR" "look at it" "codex" "cascade"
                      (Some "high") None e w)).
Proof.
  intros e w.
  exact (call_tool_named_runs_the_tool
           (CreateTask "Review PR" "look at it" "codex" "cascade"
                       (Some "high") None) e w I).
Defined.

Lemma unknown_tool_witness :
  let e := ticking_env in
  let w := initial_world e in
  ~ In "delete_message" (map tool_name list_tools)
  /\ call_tool_named "delete_message" no_arguments e w
     = (Returned (RError "Unknown tool: delete_message"), w).
Proof.
  intros e w.
  assert (H : ~ In "delete_message" (map tool_name list_tools)).
  { cbn [map list_tools tool_name In]. intro H.
    repeat (destruct H as [H|H]; [discriminate|]). exact H. }
  split; [exact H|].
  exact (proj1 (unknown_tool_iff_unlisted "delete_message" no_arguments e w) H).
Defined.

Lemma created_task_can_be_updated_witness :
  let e := ticking_env in
  let w := initial_world e in
  let w' := snd (create_task "Review PR" "look at it" "codex" "cascade"
                             None None e w) in
  (forall t, In t (tasks w) -> t_id t <> "1700000000000-000000100")
  /\ exists updated,
       fst (update_task "1700000000000-000000100" (Some "in_progress") None
                        e w')
       = RTaskUpdated updated
       /\ t_title updated = "Review PR".
Proof.
  intros e w w'.
  assert (Fresh : forall t, In t (tasks w) ->
                            t_id t <> "1700000000000-000000100")
    by (intros t []).
  split; [exact Fresh|].
  pose proof (created_task_can_be_updated e w "Review PR" "look at it" "codex"
                "cascade" None None (Some "in_progress") None) as T.
  rewrite create_task_run in T.
  destruct T as (task_id & R & _ & T).
  injection R as <-.
  destruct (T Fresh) as (updated & U & Ht & _).
  exists updated. split; [exact U|exact Ht].
Defined.
